(** * Ball Pivoting Algorithm: the reconstruction engine of [bpa.py]

    A shallow embedding of [BallPivotingAlgorithm] (file [bpa.py]) and of the
    three classes it imports, [Point], [Edge] and [Face].  The engine is
    translated from its source, method by method.  The imported classes are
    not part of the sources at hand; they are modelled from the design
    document, and every such definition says so in its comment.

    Python objects with identity (the [Edge] instances, whose [connections]
    attribute is mutated) live in a heap and are named by their address.
    The two class attributes [faces] and [edges] of [BallPivotingAlgorithm]
    are fields of the store shared by all engine instances; an instance
    attribute that shadows one of them is a field of the instance. *)

From Stdlib Require Import ZArith QArith String Ascii List Bool Lia DecimalString.
From stdpp Require Import base decidable list option strings.

Open Scope string_scope.
Open Scope list_scope.
Open Scope nat_scope.

(** ** Numbers

    Coordinates and the radius are Python floats.  Their arithmetic is used
    only inside the vector primitives, which the engine calls and never
    looks into; the engine itself compares points for equality and parses
    them from text.  [float] is Python's [float(s)]: [None] stands for the
    [ValueError] of a malformed literal. *)

Class Scalar := {
  real : Type;
  real_eq_dec :: EqDecision real;
  float : string -> option real;
}.

(** ** Exceptions

    The string names the expression that raised. *)

Inductive exception :=
| ValueError (origin : string)
| TypeError (origin : string)
| IndexError (origin : string)
| AttributeError (origin : string)
| LookupError (origin : string)
| FileNotFoundError (origin : string).

#[global] Instance exception_eq_dec : EqDecision exception.
Proof. solve_decision. Defined.

(** ** Points *)

Module Point.
Section defs.
Context `{Sc : Scalar}.

(** Modelled from the spec: the class [Point] of [point.py], which is not
    among the sources.  A point is a value: three coordinates, equal exactly
    when the coordinates are. *)
Record t := mk { x : real; y : real; z : real }.

#[export] Instance eq_dec : EqDecision t.
Proof. solve_decision. Defined.

(** [p == q] *)
Definition eqb (p q : t) : bool := bool_decide (p = q).

End defs.
End Point.

(** ** The vector primitives

    Distance, the ball resting on three points and the order in which a
    pivoting ball reaches its candidates belong to the arithmetic layer under
    the engine.  They are taken as an interface; every statement below holds
    for each implementation of it.

    - [distance p q] is the Euclidean distance, [within d r] is [d <= r] and
      [closer d d'] is [d < d'];
    - [in_neighbourhood p1 p2 r q] is the pruning region around the edge
      [(p1, p2)];
    - [ball_centre p1 p2 p3 r] is the centre of the ball of radius [r]
      through the three points, when the triangle is not degenerate and its
      circumradius does not exceed [r];
    - [strictly_inside c r q] says that [q] is strictly inside the ball of
      centre [c] and radius [r];
    - [reached_before p1 p2 fs c c'] says that a ball pivoting on [(p1, p2)]
      from its position on the previous face reaches [c] at a strictly
      smaller rotation angle than [c'];
    - [invalidated fs p1 p2 q] says that [q] is already used by a face that
      rules it out for the edge [(p1, p2)]; [fs] are the vertex triples of
      the faces emitted so far. *)

Class Geometry `{Sc : Scalar} := {
  dist : Type;
  distance : Point.t -> Point.t -> dist;
  within : dist -> real -> bool;
  closer : dist -> dist -> bool;
  ball : Type;
  in_neighbourhood : Point.t -> Point.t -> real -> Point.t -> bool;
  ball_centre : Point.t -> Point.t -> Point.t -> real -> option ball;
  strictly_inside : ball -> real -> Point.t -> bool;
  reached_before :
    Point.t -> Point.t -> list (Point.t * Point.t * Point.t) -> ball -> ball -> bool;
  invalidated :
    list (Point.t * Point.t * Point.t) -> Point.t -> Point.t -> Point.t -> bool;
}.

Module PointOps.
Section defs.
Context `{G : Geometry}.

(** Modelled from the spec: [Point.find_neighbouring_vertices_with_distance]
    of [point.py].  Every point of the cloud other than [p] whose distance
    to [p] is at most the radius, with the distances alongside. *)
Definition find_neighbouring_vertices_with_distance
    (p : Point.t) (cloud : list Point.t) (radius : real)
    : list Point.t * list dist :=
  let hits :=
    List.filter
      (fun q => negb (Point.eqb q p) && within (distance p q) radius) cloud in
  (hits, List.map (distance p) hits).

(** The running minimum of [get_closest_point]: a later candidate replaces
    the best one only when it is strictly closer, so that the first of
    several equally close candidates wins. *)
Fixpoint closest_from (best : Point.t) (d : dist) (rest : list (Point.t * dist))
    : Point.t :=
  match rest with
  | [] => best
  | (q, d') :: rest' =>
      if closer d' d then closest_from q d' rest' else closest_from best d rest'
  end.

(** Modelled from the spec: [Point.get_closest_point] of [point.py].
    [None] is the lookup failure on an empty candidate list. *)
Definition get_closest_point (neighbours : list Point.t) (distances : list dist)
    : option Point.t :=
  match zip neighbours distances with
  | [] => None
  | (q, d) :: rest => Some (closest_from q d rest)
  end.

End defs.
End PointOps.

(** ** Edges and faces *)

Module Edge.
Section defs.
Context `{Sc : Scalar}.

(** Modelled from the spec: the class [Edge] of [edge.py], which is not
    among the sources.  Two end points in the order given to the
    constructor, and the number of faces built on the edge. *)
Record t := mk { p1 : Point.t; p2 : Point.t; connections : nat }.

(** [Edge(a, b)]: a new object, not yet connected to any face. *)
Definition init (a b : Point.t) : t := mk a b 0.

(** Modelled from the spec: [Edge.__eq__], symmetric in the end points. *)
Definition eqb (e e' : t) : bool :=
  (Point.eqb (p1 e) (p1 e') && Point.eqb (p2 e) (p2 e'))
  || (Point.eqb (p1 e) (p2 e') && Point.eqb (p2 e) (p1 e')).

Definition connect (e : t) : t := mk (p1 e) (p2 e) (Datatypes.S (connections e)).

End defs.
End Edge.

(** The heap of [Edge] objects.  An object is named by its position, and
    objects are never freed: allocation appends. *)
Abbreviation heap_t := (list Edge.t).

Module Face.
Section defs.
Context `{Sc : Scalar}.

(** Modelled from the spec: the class [Face] of [face.py], which is not
    among the sources.  Three points in the order of discovery, references
    to the three [Edge] objects, and the positions of the points in the
    cloud. *)
Record t := mk {
  p1 : Point.t; p2 : Point.t; p3 : Point.t;
  e1 : nat; e2 : nat; e3 : nat;
  p1_index : nat; p2_index : nat; p3_index : nat;
}.

Definition vertices (f : t) : Point.t * Point.t * Point.t := (p1 f, p2 f, p3 f).

(** Modelled from the spec: the constructor [Face(points, edges, indices)].
    Each of the three edges is referenced by one face more. *)
Definition init (h : heap_t) (ps : Point.t * Point.t * Point.t)
    (es : nat * nat * nat) (ix : nat * nat * nat) : heap_t * t :=
  let '(a, b, c) := ps in
  let '(r1, r2, r3) := es in
  let '(i, j, k) := ix in
  (alter Edge.connect r3 (alter Edge.connect r2 (alter Edge.connect r1 h)),
   mk a b c r1 r2 r3 i j k).

(** An edge on which a face can still be built. *)
Definition is_front (h : heap_t) (r : nat) : bool :=
  match h !! r with
  | Some e => Edge.connections e <? 2
  | None => false
  end.

(** Modelled from the spec: [Face.get_new_edge].  An edge of the face that
    has fewer than two connections; the edge the face was built on (the
    first one) is taken only when neither of the other two qualifies.
    [None] when all three are saturated. *)
Definition get_new_edge (h : heap_t) (f : t) : option nat :=
  List.find (is_front h) [e2 f; e3 f; e1 f].

End defs.
End Face.

Module EdgeOps.
Section defs.
Context `{G : Geometry}.

Abbreviation triple := (Point.t * Point.t * Point.t)%type.

(** Step 1 of the pivot: the points worth looking at. *)
Definition candidates (e : Edge.t) (cloud : list Point.t) (radius : real)
    (faces : list triple) : list Point.t :=
  List.filter
    (fun q =>
       negb (Point.eqb q (Edge.p1 e)) && negb (Point.eqb q (Edge.p2 e))
       && in_neighbourhood (Edge.p1 e) (Edge.p2 e) radius q
       && negb (invalidated faces (Edge.p1 e) (Edge.p2 e) q))
    cloud.

(** Step 4 of the pivot: no point of the cloud other than the three the ball
    rests on is strictly inside it. *)
Definition empty_ball (c : ball) (radius : real) (a b p3 : Point.t)
    (cloud : list Point.t) : bool :=
  forallb
    (fun q =>
       Point.eqb q a || Point.eqb q b || Point.eqb q p3
       || negb (strictly_inside c radius q))
    cloud.

(** Steps 2 and 4 for one candidate: the centre of its ball, when the ball
    exists and is empty. *)
Definition admissible (e : Edge.t) (cloud : list Point.t) (radius : real)
    (p3 : Point.t) : option ball :=
  match ball_centre (Edge.p1 e) (Edge.p2 e) p3 radius with
  | Some c =>
      if empty_ball c radius (Edge.p1 e) (Edge.p2 e) p3 cloud then Some c else None
  | None => None
  end.

(** Step 3: the admissible candidate reached first; of two candidates at the
    same angle the one discovered first stays. *)
Fixpoint first_reached (e : Edge.t) (cloud : list Point.t) (radius : real)
    (faces : list triple) (best : option (Point.t * ball)) (cands : list Point.t)
    : option (Point.t * ball) :=
  match cands with
  | [] => best
  | q :: rest =>
      match admissible e cloud radius q with
      | None => first_reached e cloud radius faces best rest
      | Some c =>
          match best with
          | None => first_reached e cloud radius faces (Some (q, c)) rest
          | Some (_, cb) =>
              if reached_before (Edge.p1 e) (Edge.p2 e) faces c cb
              then first_reached e cloud radius faces (Some (q, c)) rest
              else first_reached e cloud radius faces best rest
          end
      end
  end.

(** Modelled from the spec: [Edge.find_third_point] of [edge.py], the
    ball-pivot predicate.  [None] is the answer "no point found". *)
Definition find_third_point (e : Edge.t) (cloud : list Point.t) (radius : real)
    (faces : list Face.t) : option Point.t :=
  let fs := List.map Face.vertices faces in
  fst <$> first_reached e cloud radius fs None (candidates e cloud radius fs).

End defs.
End EdgeOps.

(** ** The store *)

Section store.
Context `{Sc : Scalar}.

(** The lines of an object file.  [Vertex] is [v x y z], [Triangle] is
    [f i j k], [Comment] is [# text] and [Blank] the empty line. *)
Inductive line :=
| Comment (text : string)
| Vertex (x y z : real)
| Blank
| Triangle (i j k : nat).

(** A numpy array of points.  [Unsized] is [np.ndarray([])], the array of
    shape [()]: it has no length, no item 0 and cannot be iterated. *)
Inductive ndarray :=
| Unsized
| Array (items : list Point.t).

(** What all engine instances share: the [Edge] objects, the class
    attributes [BallPivotingAlgorithm.faces] and [BallPivotingAlgorithm.edges],
    and the file system.  [disk] gives the lines of a readable text file as
    [readlines] returns them; [written] logs the files written, oldest
    first. *)
Record World := mkWorld {
  heap : heap_t;
  faces : list Face.t;
  edges : list nat;
  disk : string -> option (list string);
  written : list (string * list line);
}.

(** The attributes of one engine instance.  [file_location] is set only by a
    constructor call that names a file.  [own_edges] is the instance
    attribute [edges] once [self.edges = ...] has created it; until then
    [self.edges] is the class attribute. *)
Record Engine := mkEngine {
  point_cloud : ndarray;
  radius : real;
  iterations : Z;
  file_location : option string;
  own_edges : option (list nat);
}.

(** How a call ends: it returns, the process leaves through [quit()], or an
    exception propagates.  Nothing catches exceptions in [bpa.py], so a
    raised exception ends the process; it carries the files written up to
    then. *)
Inductive outcome (A : Type) :=
| Return (a : A) (w : World) (self : Engine)
| Exit (w : World)
| Raise (e : exception) (files : list (string * list line)).

Definition M (A : Type) : Type := World -> Engine -> outcome A.

Definition ret {A} (a : A) : M A := fun w self => Return A a w self.

Definition bind {A B} (m : M A) (f : A -> M B) : M B :=
  fun w self =>
    match m w self with
    | Return _ a w' self' => f a w' self'
    | Exit _ w' => Exit B w'
    | Raise _ e fs => Raise B e fs
    end.

Definition raise {A} (e : exception) : M A := fun w _ => Raise A e (written w).
Definition quit {A} : M A := fun w _ => Exit A w.
Definition get_world : M World := fun w self => Return _ w w self.
Definition get_self : M Engine := fun w self => Return _ self w self.
Definition put_self (self : Engine) : M unit := fun w _ => Return _ tt w self.

(** An optional value that must be there, or else [e]. *)
Definition expect {A} (o : option A) (e : exception) : M A :=
  match o with
  | Some a => ret a
  | None => raise e
  end.

End store.

Arguments Return {_ _} a w self.
Arguments Exit {_ _} w.
Arguments Raise {_ _} e files.

Declare Scope py_scope.
Delimit Scope py_scope with py.
Notation "x <- m ;; k" := (bind m (fun x => k))
  (at level 100, m at next level, right associativity) : py_scope.
Notation "m ;; k" := (bind m (fun _ => k))
  (at level 100, right associativity) : py_scope.
Open Scope py_scope.

(** ** Text *)

(** [s.split(c)] *)
Fixpoint str_split (c : ascii) (s : string) : list string :=
  match s with
  | EmptyString => [EmptyString]
  | String a s' =>
      if Ascii.eqb a c then EmptyString :: str_split c s'
      else match str_split c s' with
           | h :: t => String a h :: t
           | [] => [String a EmptyString]
           end
  end.

(** [c.join(parts)] *)
Definition str_join (c : string) (parts : list string) : string := String.concat c parts.

(** The characters at which [s.split()] cuts: tab, line feed, vertical tab,
    form feed, carriage return, the four separators 28 to 31, and space. *)
Definition is_space (a : ascii) : bool :=
  let n := nat_of_ascii a in
  ((9 <=? n) && (n <=? 13)) || ((28 <=? n) && (n <=? 31)) || (n =? 32).

(** [s.split()]: the maximal runs of characters that are not white space.
    [cur] is the run being read. *)
Fixpoint words (cur : string) (s : string) : list string :=
  match s with
  | EmptyString => if String.eqb cur "" then [] else [cur]
  | String a s' =>
      if is_space a
      then (if String.eqb cur "" then words "" s' else cur :: words "" s')
      else words (cur +:+ String a "") s'
  end.

(** [parts[-2] += suffix] followed by [".".join(parts)] *)
Definition edited_name (loc suffix : string) : option string :=
  let parts := str_split "." loc in
  if length parts <? 2 then None
  else Some (str_join "." (alter (fun s => s +:+ suffix) (length parts - 2) parts)).

(** *** Text files

    What the loader and the writer do with text, beyond the splitting
    above. *)

(** The line feed that ends every line [write_to_file] writes. *)
Definition newline : string := String (ascii_of_nat 10) "".

(** [s.count(c)] *)
Fixpoint occurrences (c : ascii) (s : string) : nat :=
  match s with
  | EmptyString => 0
  | String a s' => (if Ascii.eqb a c then 1 else 0) + occurrences c s'
  end.

(** No character of [s] is white space: [s.split()] leaves [s] whole. *)
Fixpoint spaceless (s : string) : bool :=
  match s with
  | EmptyString => true
  | String a s' => negb (is_space a) && spaceless s'
  end.


Definition line_feed : ascii := ascii_of_nat 10.
Definition carriage_return : ascii := ascii_of_nat 13.

(** [s] holds no line break. *)
Fixpoint one_line (s : string) : bool :=
  match s with
  | EmptyString => true
  | String a s' =>
      negb (Ascii.eqb a line_feed || Ascii.eqb a carriage_return) && one_line s'
  end.

(** [f.readlines()] on a file opened with [open(name, 'r')], lines 51 and
    55: the text is cut after each line break, and a line break is a line
    feed, a carriage return, or the two in this order; each is handed over
    as one line feed.  A last line without a line break is kept as it
    is. *)
Fixpoint readlines (s : string) : list string :=
  match s with
  | EmptyString => []
  | String a s' =>
      if Ascii.eqb a line_feed then newline :: readlines s'
      else if Ascii.eqb a carriage_return then
        match s' with
        | String b _ =>
            if Ascii.eqb b line_feed then readlines s' else newline :: readlines s'
        | EmptyString => [newline]
        end
      else match readlines s' with
           | l :: ls => String a l :: ls
           | [] => [String a ""]
           end
  end.

(** ** The engine: [class BallPivotingAlgorithm] *)

Section engine.
Context `{G : Geometry}.

Definition set_heap (w : World) (h : heap_t) : World :=
  mkWorld h (faces w) (edges w) (disk w) (written w).
Definition set_faces (w : World) (fs : list Face.t) : World :=
  mkWorld (heap w) fs (edges w) (disk w) (written w).
Definition set_edges (w : World) (es : list nat) : World :=
  mkWorld (heap w) (faces w) es (disk w) (written w).
Definition set_written (w : World) (fs : list (string * list line)) : World :=
  mkWorld (heap w) (faces w) (edges w) (disk w) fs.

Definition set_point_cloud (self : Engine) (a : ndarray) : Engine :=
  mkEngine a (radius self) (iterations self) (file_location self) (own_edges self).
Definition set_iterations (self : Engine) (n : Z) : Engine :=
  mkEngine (point_cloud self) (radius self) n (file_location self) (own_edges self).
Definition set_file_location (self : Engine) (f : option string) : Engine :=
  mkEngine (point_cloud self) (radius self) (iterations self) f (own_edges self).
Definition set_own_edges (self : Engine) (es : option (list nat)) : Engine :=
  mkEngine (point_cloud self) (radius self) (iterations self) (file_location self) es.

(** [self.faces]: the class attribute, which no assignment ever shadows. *)
Definition self_faces (w : World) (self : Engine) : list Face.t := faces w.

(** [self.edges]: the instance attribute if there is one, else the class
    attribute. *)
Definition self_edges (w : World) (self : Engine) : list nat :=
  match own_edges self with
  | Some es => es
  | None => edges w
  end.

(** [self.edges.append(r)] mutates the list that [self.edges] denotes. *)
Definition append_edge (r : nat) : M unit :=
  fun w self =>
    match own_edges self with
    | Some es => Return tt w (set_own_edges self (Some (es ++ [r])))
    | None => Return tt (set_edges w (edges w ++ [r])) self
    end.

(** [self.faces.append(f)] *)
Definition append_face (f : Face.t) : M unit :=
  fun w self => Return tt (set_faces w (faces w ++ [f])) self.

(** [Edge(a, b)] allocates. *)
Definition new_edge (a b : Point.t) : M nat :=
  fun w self => Return (length (heap w)) (set_heap w (heap w ++ [Edge.init a b])) self.

(** [Face(points, edges, indices)] *)
Definition new_face (ps : Point.t * Point.t * Point.t) (es : nat * nat * nat)
    (ix : nat * nat * nat) : M Face.t :=
  fun w self =>
    let '(h, f) := Face.init (heap w) ps es ix in Return f (set_heap w h) self.

(** Reading an [Edge] object.  References come from [new_edge] only, so the
    object is there; [LookupError "heap"] is the model's answer otherwise and
    is no Python exception. *)
Definition deref (r : nat) : M Edge.t :=
  w <- get_world ;; expect (heap w !! r) (LookupError "heap").

(** [np.where(cloud == p)[0]]: the positions of the items equal to [p]. *)
Definition np_where (cloud : list Point.t) (p : Point.t) : list nat :=
  List.map fst (List.filter (fun iq => Point.eqb (snd iq) p) (imap pair cloud)).

(** [np.where(self.point_cloud == p)[0][0]] *)
Definition index_of (cloud : list Point.t) (p : Point.t) : M nat :=
  expect (head (np_where cloud p)) (IndexError "np.where(self.point_cloud == p)[0][0]").

(** Two references that [set] takes for the same element: the same object,
    or two objects that are [==]. *)
Definition same_edge (h : heap_t) (r r' : nat) : bool :=
  bool_decide (r = r')
  || match h !! r, h !! r' with
     | Some e, Some e' => Edge.eqb e e'
     | _, _ => false
     end.

(** [list(set(es))]: of several equal elements a set keeps the one inserted
    first.  The order in which a set is listed follows the hashes and is of
    no consequence here; the model lists in insertion order. *)
Definition distinct (h : heap_t) (es : list nat) : list nat :=
  fold_left (fun acc r => if existsb (same_edge h r) acc then acc else acc ++ [r]) es [].

(** [self.edges = list(set(self.edges))]: from now on the instance has an
    [edges] attribute of its own. *)
Definition rebind_edges : M unit :=
  fun w self => Return tt w (set_own_edges self (Some (distinct (heap w) (self_edges w self)))).

(** *** [find_seed_triangle], lines 74 to 102

    When [find_third_point] finds no point the engine goes on with [None] in
    the place of the third point.  The two [Edge] constructor calls on it
    are taken to go through; the first use that cannot is the search of
    [None] in the cloud on line 100, after the positions of the first two
    points have been looked up. *)
Definition find_seed_triangle : M Face.t :=
  self <- get_self ;;
  cloud <- match point_cloud self with
           | Unsized => raise (IndexError "self.point_cloud[0]")
           | Array items => ret items
           end ;;
  first_point <- expect (head cloud) (IndexError "self.point_cloud[0]") ;;
  let '(neighbours, distances) :=
    PointOps.find_neighbouring_vertices_with_distance first_point cloud (radius self) in
  second_point <- expect (PointOps.get_closest_point neighbours distances)
                    (LookupError "first_point.get_closest_point(neighbours, distances)") ;;
  first_edge <- new_edge first_point second_point ;;
  append_edge first_edge ;;
  w <- get_world ;;
  match EdgeOps.find_third_point (Edge.init first_point second_point)
          cloud (radius self) (self_faces w self) with
  | None =>
      _ <- index_of cloud first_point ;;
      _ <- index_of cloud second_point ;;
      raise (IndexError "np.where(self.point_cloud == third_point)[0][0]")
  | Some third_point =>
      second_edge <- new_edge second_point third_point ;;
      third_edge <- new_edge third_point first_point ;;
      append_edge second_edge ;;
      append_edge third_edge ;;
      i1 <- index_of cloud first_point ;;
      i2 <- index_of cloud second_point ;;
      i3 <- index_of cloud third_point ;;
      new_face (first_point, second_point, third_point)
        (first_edge, second_edge, third_edge) (i1, i2, i3)
  end.

(** *** [pivot_ball], lines 104 to 123

    [edge] is [None] when the caller has no edge to offer.  Line 121 and
    line 123 look up the same three positions; the model does it once.  As
    in [find_seed_triangle], a missing third point is taken to go through
    the [Edge] constructor and the set of line 119, and to fail when it is
    looked up in the cloud. *)
Definition pivot_ball (edge : option nat) : M Face.t :=
  match edge with
  | None => raise (AttributeError "edge.find_third_point")
  | Some r =>
      self <- get_self ;;
      w <- get_world ;;
      e <- deref r ;;
      cloud <- match point_cloud self with
               | Unsized => raise (TypeError "iteration over a 0-d array")
               | Array items => ret items
               end ;;
      match EdgeOps.find_third_point e cloud (radius self) (self_faces w self) with
      | None =>
          _ <- index_of cloud (Edge.p1 e) ;;
          _ <- index_of cloud (Edge.p2 e) ;;
          raise (IndexError "np.where(self.point_cloud == third_point)[0][0]")
      | Some third_point =>
          second_edge <- new_edge (Edge.p1 e) third_point ;;
          third_edge <- new_edge (Edge.p2 e) third_point ;;
          append_edge second_edge ;;
          append_edge third_edge ;;
          rebind_edges ;;
          i1 <- index_of cloud (Edge.p1 e) ;;
          i2 <- index_of cloud (Edge.p2 e) ;;
          i3 <- index_of cloud third_point ;;
          new_face (Edge.p1 e, Edge.p2 e, third_point)
            (r, second_edge, third_edge) (i1, i2, i3)
      end
  end.

(** *** [write_to_file], lines 125 to 158 *)

Definition vertex_line (p : Point.t) : line := Vertex (Point.x p) (Point.y p) (Point.z p).

Definition face_line (f : Face.t) : line :=
  Triangle (Face.p1_index f + 1) (Face.p2_index f + 1) (Face.p3_index f + 1).

Definition write (name : string) (content : list line) : M unit :=
  fun w self => Return tt (set_written w (written w ++ [(name, content)])) self.

Definition write_to_file (arg : option string) : M unit :=
  self <- get_self ;;
  loc <- expect (match arg with
                 | Some l => Some l
                 | None => file_location self
                 end) (AttributeError "self.file_location") ;;
  mesh <- expect (edited_name loc "_edited") (IndexError "edited_file_location[-2]") ;;
  match point_cloud self with
  | Unsized =>
      write mesh [Comment loc] ;;
      raise (TypeError "for point in self.point_cloud")
  | Array items =>
      w <- get_world ;;
      write mesh
        (Comment loc :: List.map vertex_line items
           ++ Blank :: List.map face_line (self_faces w self)) ;;
      cloud_file <- expect (edited_name loc "_point_cloud")
                      (IndexError "edited_file_location[-2]") ;;
      write cloud_file (Comment loc :: List.map vertex_line items)
  end.

(** *** [points_left], lines 160 to 172 *)
Definition points_left : M bool :=
  w <- get_world ;;
  self <- get_self ;;
  ret (existsb (Face.is_front (heap w)) (self_edges w self)).

(** *** [run], lines 175 to 200 *)

(** The [while] loop of lines 192 to 196.  [rest] is [self.faces[k:]], so
    that [self.faces[k]] is its head and the [IndexError] of an index past
    the end is the empty [rest]. *)
Fixpoint next_front (rest : list Face.t) (k : nat) (edge : option nat)
    : M (option nat) :=
  match edge with
  | Some _ => ret edge
  | None =>
      w <- get_world ;;
      self <- get_self ;;
      if length (self_faces w self) <? k
      then write_to_file None ;; quit
      else match rest with
           | [] => raise (IndexError "self.faces[k]")
           | face :: rest' =>
               next_front rest' (Datatypes.S k) (Face.get_new_edge (heap w) face)
           end
  end.

(** The body of the [for] loop, lines 185 to 196.  The progress message of
    line 189 goes to the terminal and is left out. *)
Definition step (edge : option nat) : M (option nat) :=
  face <- pivot_ball edge ;;
  append_face face ;;
  w <- get_world ;;
  self <- get_self ;;
  next_front (self_faces w self) 0 (Face.get_new_edge (heap w) face).

(** [for i in range(n)] *)
Fixpoint loop (n : nat) (edge : option nat) : M unit :=
  match n with
  | 0 => ret tt
  | Datatypes.S n' => edge' <- step edge ;; loop n' edge'
  end.

Definition run : M unit :=
  seed_triangle <- find_seed_triangle ;;
  append_face seed_triangle ;;
  w <- get_world ;;
  self <- get_self ;;
  loop (Z.to_nat (iterations self)) (Face.get_new_edge (heap w) seed_triangle) ;;
  write_to_file None.

End engine.

(** ** Construction: [open_point_cloud] and [__init__] *)

Section construction.
Context `{G : Geometry}.

(** [segments[i]] *)
Definition segment (segments : list string) (i : nat) (origin : string)
    : exception + string :=
  match segments !! i with
  | Some s => inr s
  | None => inl (IndexError origin)
  end.

(** [float(segments[i])] *)
Definition coordinate (segments : list string) (i : nat) (at_index at_float : string)
    : exception + real :=
  match segment segments i at_index with
  | inl e => inl e
  | inr s =>
      match float s with
      | Some x => inr x
      | None => inl (ValueError at_float)
      end
  end.

(** Lines 64 to 68: the point of a vertex line. *)
Definition vertex_of (segments : list string) : exception + Point.t :=
  match coordinate segments 1 "segments[1]" "float(segments[1])" with
  | inl e => inl e
  | inr x =>
      match coordinate segments 2 "segments[2]" "float(segments[2])" with
      | inl e => inl e
      | inr y =>
          match coordinate segments 3 "segments[3]" "float(segments[3])" with
          | inl e => inl e
          | inr z => inr (Point.mk x y z)
          end
      end
  end.

(** The loop of lines 55 to 68 over the lines of the file.  A line of at
    most three characters is skipped, and so is a line whose first word is
    not [v]. *)
Fixpoint read_points (lines : list string) (points : list Point.t)
    : exception + list Point.t :=
  match lines with
  | [] => inr points
  | l :: rest =>
      if negb (3 <? String.length l) then read_points rest points
      else
        let segments := words "" l in
        match segment segments 0 "segments[0]" with
        | inl e => inl e
        | inr s0 =>
            if negb (String.eqb s0 "v") then read_points rest points
            else match vertex_of segments with
                 | inl e => inl e
                 | inr p => read_points rest (points ++ [p])
                 end
        end
  end.

(** *** [open_point_cloud], lines 41 to 72 *)
Definition open_point_cloud (file_location : string) : M unit :=
  if negb (String.eqb (List.last (str_split "." file_location) "") "obj")
  then raise (ValueError "Only able to read object data of types ['obj']")
  else
    w <- get_world ;;
    lines <- expect (disk w file_location) (FileNotFoundError "open(file_location, 'r')") ;;
    match read_points lines [] with
    | inl e => raise e
    | inr points =>
        self <- get_self ;;
        put_self (set_point_cloud self (Array points))
    end.

(** [point_cloud or np.ndarray([])], line 30.  The truth value of an array
    is that of its only item, [False] when it has none (numpy 1.x), and an
    error when it has several; a [Point] object is true. *)
Definition cloud_or_default (point_cloud : option (list Point.t)) : M ndarray :=
  match point_cloud with
  | None => ret Unsized
  | Some [] => ret Unsized
  | Some [p] => ret (Array [p])
  | Some (_ :: _ :: _) => raise (ValueError "point_cloud or np.ndarray([])")
  end.

(** [len(self.point_cloud)] *)
Definition cloud_len : M Z :=
  self <- get_self ;;
  match point_cloud self with
  | Unsized => raise (TypeError "len(self.point_cloud)")
  | Array items => ret (Z.of_nat (length items))
  end.

(** The body of [__init__], lines 30 to 39, on an engine that has its
    radius already: the assignment of line 34 cannot fail and nothing before
    it reads the radius. *)
Definition init_body (cloud : option (list Point.t)) (file : option string)
    (iters : option Z) : M unit :=
  a <- cloud_or_default cloud ;;
  self <- get_self ;;
  put_self (set_point_cloud self a) ;;
  match file with
  | Some f =>
      if String.eqb f "" then ret tt
      else
        open_point_cloud f ;;
        self <- get_self ;;
        put_self (set_file_location self (Some f))
  | None => ret tt
  end ;;
  n <- match iters with
       | Some n => if (n =? 0)%Z then cloud_len else ret n
       | None => cloud_len
       end ;;
  self <- get_self ;;
  put_self (set_iterations self n).

(** *** [__init__], lines 24 to 39.  The new engine is the [self] of the
    outcome. *)
Definition __init__ (r : real) (cloud : option (list Point.t))
    (file : option string) (iters : option Z) (w : World) : outcome unit :=
  init_body cloud file iters w (mkEngine Unsized r 0%Z None None).

(** *** [main], lines 202 to 205 *)
Definition main (r : real) (file : string) (iters : Z) (w : World) : outcome unit :=
  match __init__ r None (Some file) (Some iters) w with
  | Return _ w' bpa => run w' bpa
  | Exit w' => Exit w'
  | Raise e fs => Raise e fs
  end.

End construction.

(** ** The text of the files written, lines 136 to 156

    [show] is the text that an f-string gives for a coordinate.  It is
    left open; what the properties below ask of it is [shown]. *)

Section printing.
Context `{Sc : Scalar}.
Variable show : real -> string.

(** The decimal digits of an index. *)
Definition show_nat (n : nat) : string := NilZero.string_of_uint (Nat.to_uint n).

(** The string that [f.write] is given for one line: lines 137, 140, 142,
    145, 153 and 156. *)
Definition render (l : line) : string :=
  match l with
  | Comment text => "# " +:+ text +:+ newline
  | Vertex x y z => "v " +:+ show x +:+ " " +:+ show y +:+ " " +:+ show z +:+ newline
  | Blank => newline
  | Triangle i j k =>
      "f " +:+ show_nat i +:+ " " +:+ show_nat j +:+ " " +:+ show_nat k +:+ newline
  end.

(** The text of a file: the strings written, one after the other. *)
Definition text (content : list line) : string :=
  String.concat "" (List.map render content).

(** [float] reads the text of [x] back as [x], and the text is one word. *)
Definition shown (x : real) : Prop :=
  float (show x) = Some x /\ show x <> "" /\ spaceless (show x) = true.

Definition shown_point (p : Point.t) : Prop :=
  shown (Point.x p) /\ shown (Point.y p) /\ shown (Point.z p).

(** A line whose text holds no line break but the one at its end. *)
Definition printable (l : line) : Prop :=
  match l with
  | Comment t => one_line t = true
  | Vertex x y z =>
      spaceless (show x) = true /\ spaceless (show y) = true /\ spaceless (show z) = true
  | Blank | Triangle _ _ _ => True
  end.

End printing.

(** The lines that the loader takes for vertices, lines 57 to 62: longer
    than three characters, with [v] as the first word. *)
Definition is_vertex_line (l : string) : bool :=
  (3 <? String.length l)
  && match words "" l with
     | s0 :: _ => String.eqb s0 "v"
     | [] => false
     end.

(** ** An exact implementation of the primitives

    Rational coordinates and exact predicates, used to run the engine on
    small clouds.  A distance is represented by its square, which orders as
    the distance does.  The centre of a ball is represented by the
    circumcentre [cc] of the triangle, the normal [nv] of its plane and the
    square [h2] of the height of the centre above the plane: the centre is
    [cc + sqrt h2 * nv / |nv|].  Every candidate counts as reached at the
    same angle, so that the order of discovery decides, and a point is
    ruled out for an edge when the triangle it would close is a face
    already. *)

Module Exact.

#[export] Instance Q_eq_dec : EqDecision Q.
Proof. solve_decision. Defined.

Definition digit (a : ascii) : option Z :=
  let n := nat_of_ascii a in
  if (48 <=? n) && (n <=? 57) then Some (Z.of_nat (n - 48)) else None.

(** Decimal digits, read as the number [acc] continued; [scale] counts the
    powers of ten consumed. *)
Fixpoint digits (s : string) (acc : Z) (scale : positive) : option (Z * positive * string) :=
  match s with
  | EmptyString => Some (acc, scale, EmptyString)
  | String a s' =>
      match digit a with
      | Some d => digits s' (10 * acc + d)%Z (10 * scale)%positive
      | None => Some (acc, scale, s)
      end
  end.

Definition unsigned_decimal (s : string) : option Q :=
  match digits s 0%Z 1%positive with
  | Some (n, k, rest) =>
      match rest with
      | EmptyString => if Pos.eqb k 1 then None else Some (inject_Z n)
      | String "." frac =>
          match digits frac 0%Z 1%positive with
          | Some (m, j, EmptyString) =>
              if Pos.eqb k 1 && Pos.eqb j 1 then None
              else Some (Qred (inject_Z n + (m # j))%Q)
          | _ => None
          end
      | _ => None
      end
  | None => None
  end.

(** Decimal literals: an optional sign, digits, and an optional point
    followed by digits, with a digit on at least one side of the point. *)
Definition decimal (s : string) : option Q :=
  match s with
  | String "-" s' => Qopp <$> unsigned_decimal s'
  | String "+" s' => unsigned_decimal s'
  | _ => unsigned_decimal s
  end.

#[export] Instance scalar : Scalar := {| real := Q; float := decimal |}.

Definition vec : Type := Q * Q * Q.
Definition of_point (p : Point.t) : vec := (Point.x p, Point.y p, Point.z p).
Definition sub (u v : vec) : vec :=
  let '(a, b, c) := u in let '(d, e, f) := v in (a - d, b - e, c - f)%Q.
Definition add (u v : vec) : vec :=
  let '(a, b, c) := u in let '(d, e, f) := v in (a + d, b + e, c + f)%Q.
Definition scale (k : Q) (u : vec) : vec :=
  let '(a, b, c) := u in (Qred (k * a), Qred (k * b), Qred (k * c))%Q.
Definition dot (u v : vec) : Q :=
  let '(a, b, c) := u in let '(d, e, f) := v in Qred (a * d + b * e + c * f)%Q.
Definition cross (u v : vec) : vec :=
  let '(a, b, c) := u in
  let '(d, e, f) := v in
  (Qred (b * f - c * e), Qred (c * d - a * f), Qred (a * e - b * d))%Q.
Definition norm2 (u : vec) : Q := dot u u.

Definition Qlt_bool (a b : Q) : bool := negb (Qle_bool b a).

Record ball_t := mk_ball { cc : vec; nv : vec; h2 : Q }.

Definition centre (p1 p2 p3 : Point.t) (r : Q) : option ball_t :=
  let a := sub (of_point p2) (of_point p1) in
  let b := sub (of_point p3) (of_point p1) in
  let n := cross a b in
  if Qeq_bool (norm2 n) 0 then None
  else
    let rel := scale (/ (2 * norm2 n))
                 (cross (sub (scale (norm2 a) b) (scale (norm2 b) a)) n) in
    let h := Qred (r * r - norm2 rel)%Q in
    if Qle_bool 0 r && Qle_bool 0 h
    then Some (mk_ball (add (of_point p1) rel) n h)
    else None.

(** [|cc + sqrt h2 * nv / |nv| - q|^2 < r^2], decided without the root:
    with [v = cc - q] it reads [bb * sqrt hh < aa] for
    [bb = 2 (v . nv)], [hh = h2 / |nv|^2] and [aa = r^2 - h2 - |v|^2]. *)
Definition inside (c : ball_t) (r : Q) (q : Point.t) : bool :=
  let v := sub (cc c) (of_point q) in
  let bb := (2 * dot v (nv c))%Q in
  let hh := (h2 c / norm2 (nv c))%Q in
  let aa := (r * r - h2 c - norm2 v)%Q in
  if Qlt_bool 0 aa
  then Qle_bool bb 0 || Qlt_bool (bb * bb * hh) (aa * aa)
  else Qlt_bool bb 0 && Qlt_bool (aa * aa) (bb * bb * hh).

Definition same_triangle (t : Point.t * Point.t * Point.t) (a b c : Point.t) : bool :=
  let '(u, v, w) := t in
  let has := fun p => Point.eqb p u || Point.eqb p v || Point.eqb p w in
  has a && has b && has c.

#[export] Instance geometry : Geometry := {|
  dist := Q;
  distance := fun p q => norm2 (sub (of_point p) (of_point q));
  within := fun d r => Qle_bool 0 r && Qle_bool d (r * r);
  closer := Qlt_bool;
  ball := ball_t;
  in_neighbourhood := fun p1 p2 r q =>
    Qle_bool
      (norm2 (sub (scale 2 (of_point q)) (add (of_point p1) (of_point p2))))
      (16 * r * r);
  ball_centre := centre;
  strictly_inside := inside;
  reached_before := fun _ _ _ _ _ => false;
  invalidated := fun fs p1 p2 q => existsb (fun t => same_triangle t p1 p2 q) fs;
|}.

Definition pt (a b c : Q) : Point.t := Point.mk a b c.

End Exact.

(** ** Vocabulary of the statements *)

Section vocabulary.
Context `{G : Geometry}.

(** The store after a successful [find_seed_triangle] that found the points
    [a], [b] and [c]: three new [Edge] objects, each connected to the seed
    face. *)
Definition seed_world (w : World) (self : Engine) (a b c : Point.t) : World :=
  let n := length (heap w) in
  mkWorld (heap w ++ [Edge.mk a b 1; Edge.mk b c 1; Edge.mk c a 1]) (faces w)
    (match own_edges self with
     | None => edges w ++ [n; n + 1; n + 2]
     | Some _ => edges w
     end)
    (disk w) (written w).

Definition seed_self (w : World) (self : Engine) : Engine :=
  let n := length (heap w) in
  match own_edges self with
  | None => self
  | Some es => set_own_edges self (Some (es ++ [n; n + 1; n + 2]))
  end.

(** The store after a successful [pivot_ball] on the edge [e] at address [r]
    that found the point [c]: [e] has one connection more, and there are
    two new [Edge] objects, each connected to the new face. *)
Definition pivot_world (w : World) (self : Engine) (r : nat) (e : Edge.t)
    (c : Point.t) : World :=
  let n := length (heap w) in
  mkWorld
    (alter Edge.connect r (heap w)
       ++ [Edge.mk (Edge.p1 e) c 1; Edge.mk (Edge.p2 e) c 1])
    (faces w)
    (match own_edges self with
     | None => edges w ++ [n; n + 1]
     | Some _ => edges w
     end)
    (disk w) (written w).

Definition pivot_self (w : World) (self : Engine) (e : Edge.t) (c : Point.t)
    : Engine :=
  let n := length (heap w) in
  set_own_edges self
    (Some (distinct (heap w ++ [Edge.init (Edge.p1 e) c; Edge.init (Edge.p2 e) c])
             (self_edges w self ++ [n; n + 1]))).

(** The ball of radius [r] resting on the three points of [f] exists and
    has no other point of the cloud strictly inside. *)
Definition rests_empty (cloud : list Point.t) (r : real) (f : Face.t) : Prop :=
  exists c,
    ball_centre (Face.p1 f) (Face.p2 f) (Face.p3 f) r = Some c
    /\ forall q, q ∈ cloud -> q <> Face.p1 f -> q <> Face.p2 f -> q <> Face.p3 f ->
         strictly_inside c r q = false.

(** The three indices of [f] are the positions of its three points. *)
Definition resolves (cloud : list Point.t) (f : Face.t) : Prop :=
  cloud !! Face.p1_index f = Some (Face.p1 f)
  /\ cloud !! Face.p2_index f = Some (Face.p2 f)
  /\ cloud !! Face.p3_index f = Some (Face.p3 f).

(** A face the engine emits for the cloud and radius given. *)
Definition emitted (pc : ndarray) (r : real) (f : Face.t) : Prop :=
  exists w self w' self',
    point_cloud self = pc /\ radius self = r
    /\ (find_seed_triangle w self = Return f w' self'
        \/ exists edge, pivot_ball edge w self = Return f w' self').

(** What an engine keeps through every method: all but its [edges]. *)
Definition same_config (a b : Engine) : Prop :=
  point_cloud a = point_cloud b /\ radius a = radius b
  /\ iterations a = iterations b /\ file_location a = file_location b.

(** The lines of the mesh file. *)
Definition mesh_lines (loc : string) (cloud : list Point.t) (fs : list Face.t)
    : list line :=
  Comment loc :: List.map vertex_line cloud ++ Blank :: List.map face_line fs.

(** A computation that never leaves through [quit()]. *)
Definition no_exit {A} (m : M A) : Prop := forall w self w', m w self <> Exit w'.

(** A computation that leaves the files alone: it writes nothing, whether
    it returns, exits or raises. *)
Definition quiet {A} (m : M A) : Prop :=
  forall w self,
    match m w self with
    | Return _ w' _ => written w' = written w
    | Exit w' => written w' = written w
    | Raise _ fs => fs = written w
    end.

(** No edge has more than two connections. *)
Definition bounded (h : heap_t) : Prop := Forall (fun e => Edge.connections e <= 2) h.




(** The iteration count that [__init__] stores. *)
Definition stored_iterations (iters : option Z) (points : list Point.t) : Z :=
  match iters with
  | Some n => if (n =? 0)%Z then Z.of_nat (length points) else n
  | None => Z.of_nat (length points)
  end.

End vocabulary.

(** ** Sample inputs *)

Module Sample.
Import Exact.

Definition nl : string := String (ascii_of_nat 10) "".

(** The unit square in the plane [z = 0]. *)
Definition A : Point.t := pt 0 0 0.
Definition B : Point.t := pt 1 0 0.
Definition C : Point.t := pt 1 1 0.
Definition D : Point.t := pt 0 1 0.
Definition square : list Point.t := [A; B; C; D].

Definition square_obj : list string :=
  ["# unit square" +:+ nl; "v 0 0 0" +:+ nl; "v 1 0 0" +:+ nl;
   "v 1 1 0" +:+ nl; "v 0 1 0" +:+ nl].

(** Three points that are ten apart from each other. *)
Definition sparse : list Point.t := [pt 0 0 0; pt 10 0 0; pt 0 10 0].

Definition sparse_obj : list string :=
  ["v 0 0 0" +:+ nl; "v 10 0 0" +:+ nl; "v 0 10 0" +:+ nl].

(** A file without a vertex line. *)
Definition empty_obj : list string := ["# nothing" +:+ nl].

Definition files (name : string) : option (list string) :=
  if String.eqb name "square.obj" then Some square_obj
  else if String.eqb name "sparse.obj" then Some sparse_obj
  else if String.eqb name "empty.obj" then Some empty_obj
  else None.

(** The store of a process that has run nothing yet. *)
Definition start : World := mkWorld [] [] [] files [].

(** [BallPivotingAlgorithm(radius=2, file_location='square.obj', iterations=n)] *)
Definition square_engine (n : Z) : Engine :=
  mkEngine (Array square) 2%Q n (Some "square.obj") None.

(** [BallPivotingAlgorithm(radius=1, file_location='sparse.obj')] *)
Definition sparse_engine : Engine :=
  mkEngine (Array sparse) 1%Q 3%Z (Some "sparse.obj") None.


(** Three points on a line. *)
Definition aligned : list Point.t := [pt 0 0 0; pt 1 0 0; pt 2 0 0].

Definition aligned_engine : Engine :=
  mkEngine (Array aligned) 2%Q 3%Z (Some "aligned.obj") None.

(** The run on the square, state by state: after the seed, after the first
    pivot (on the edge [B C], which finds [D]) and after the second pivot
    (on the edge [B D], which finds [A]). *)
Definition seed_face : Face.t := Face.mk A B C 0 1 2 0 1 2.
Definition face2 : Face.t := Face.mk B C D 1 3 4 1 2 3.
Definition face3 : Face.t := Face.mk B D A 3 5 6 1 3 0.

Definition seeded (n : Z) : World :=
  set_faces (seed_world start (square_engine n) A B C) [seed_face].

Definition pivoted (n : Z) : World :=
  set_faces (pivot_world (seeded n) (square_engine n) 1 (Edge.mk B C 1) D)
    [seed_face; face2].

Definition engine2 (n : Z) : Engine :=
  pivot_self (seeded n) (square_engine n) (Edge.mk B C 1) D.

Definition pivoted_twice (n : Z) : World :=
  set_faces (pivot_world (pivoted n) (engine2 n) 3 (Edge.mk B D 1) A)
    [seed_face; face2; face3].

Definition engine3 (n : Z) : Engine :=
  pivot_self (pivoted n) (engine2 n) (Edge.mk B D 1) A.

Definition output (fs : list Face.t) : list (string * list line) :=
  [("square_edited.obj", mesh_lines "square.obj" square fs);
   ("square_point_cloud.obj", Comment "square.obj" :: List.map vertex_line square)].

Definition finished_1 : World := set_written (pivoted 1) (output [seed_face; face2]).

Definition finished_2 : World :=
  set_written (pivoted_twice 2) (output [seed_face; face2; face3]).

End Sample.

(** ** Sample files *)

Module Printed.
Import Exact Sample.

(** The text of a float with an integral value, as in [f"{1.0}"]. *)
Definition repr (q : real) : string :=
  NilZero.string_of_int (Z.to_int (Qnum q)) +:+ ".0".

(** A file with a line of four spaces between two vertex lines. *)
Definition gapped_obj : list string :=
  ["v 0 0 0" +:+ nl; "    " +:+ nl; "v 1 0 0" +:+ nl].

(** The files of a directory that also has a copy of the square under the
    name [obj]. *)
Definition shelf (name : string) : option (list string) :=
  if String.eqb name "gapped.obj" then Some gapped_obj
  else if String.eqb name "obj" then Some square_obj
  else files name.

Definition stocked : World := mkWorld [] [] [] shelf [].

(** [BallPivotingAlgorithm(radius=2, file_location='obj', iterations=1)] *)
Definition obj_engine : Engine :=
  mkEngine (Array square) 2%Q 1%Z (Some "obj") None.

(** [BallPivotingAlgorithm(radius=2, iterations=5)] *)
Definition bare_engine : Engine := mkEngine Unsized 2%Q 5%Z None None.

(** A store with two faces, of which only the second has an edge with
    fewer than two connections. *)
Definition half_open : World :=
  mkWorld [Edge.mk A B 2; Edge.mk B C 2; Edge.mk C A 2; Edge.mk C D 1; Edge.mk D A 2]
    [Face.mk A B C 0 1 2 0 1 2; Face.mk C A D 2 3 4 2 0 3] [0; 1; 2; 3; 4] files [].

(** A second engine on the square, run with a negative cap in the store
    that the run with the cap 1 left: its seed is the triangle [A B D],
    since [A B C] is a face already. *)
Definition face4 : Face.t := Face.mk A B D 5 6 7 0 1 3.

Definition rerun : World :=
  set_written
    (set_faces (seed_world finished_1 (square_engine (-1)) A B D)
       [seed_face; face2; face4])
    (output [seed_face; face2] ++ output [seed_face; face2; face4]).

End Printed.

(** * Properties *)

Example split_obj : str_split "." "data/bunny.obj" = ["data/bunny"; "obj"].
Proof. reflexivity. Qed.

Example split_no_dot : str_split "." "obj" = ["obj"].
Proof. reflexivity. Qed.

Example words_vertex : words "" "v 1.0  2.5	-3
" = ["v"; "1.0"; "2.5"; "-3"].
Proof. reflexivity. Qed.

Example edited_bunny : edited_name "a.b/bunny.obj" "_edited" = Some "a.b/bunny_edited.obj".
Proof. reflexivity. Qed.

Section proofs.
Context `{G : Geometry}.

Ltac unfold_py :=
  unfold deref, index_of in *;
  unfold bind, expect in *;
  unfold ret, raise, quit, get_world, get_self, put_self,
    append_edge, append_face, new_edge, new_face, rebind_edges, write in *.

(** *** The two methods that build a face *)

(** The first position at which [np.where] finds [p] holds [p]. *)
Lemma np_where_head cloud p i :
  head (np_where cloud p) = Some i -> cloud !! i = Some p.
Proof.
  unfold np_where. intros H.
  apply head_Some_elem_of in H.
  apply list_elem_of_fmap in H as [[j q] [-> H]].
  apply list_elem_of_In, filter_In in H as [H Hq]. apply list_elem_of_In in H. simpl in *.
  apply elem_of_lookup_imap in H as (k & y & Heq & Hk).
  inversion Heq; subst.
  unfold Point.eqb in Hq. apply bool_decide_eq_true in Hq. by subst.
Qed.

(** The three increments of the [Face] constructor, on three edges that were
    just allocated, and on an old edge with two new ones. *)
Lemma connect_fresh3 (h : heap_t) (a b c : Edge.t) :
  alter Edge.connect (length h + 2)
    (alter Edge.connect (length h + 1)
       (alter Edge.connect (length h) (h ++ [a; b; c])))
  = h ++ [Edge.connect a; Edge.connect b; Edge.connect c].
Proof.
  replace (length h) with (length h + 0) at 3 by lia.
  by rewrite !alter_app_r.
Qed.

Lemma connect_pivot (h : heap_t) (r : nat) (a b : Edge.t) :
  r < length h ->
  alter Edge.connect (length h + 1)
    (alter Edge.connect (length h)
       (alter Edge.connect r (h ++ [a; b])))
  = alter Edge.connect r h ++ [Edge.connect a; Edge.connect b].
Proof.
  intros Hr. rewrite alter_app_l by done.
  replace (length h) with (length (alter Edge.connect r h) + 0) at 2
    by (rewrite length_alter; lia).
  replace (length h) with (length (alter Edge.connect r h))
    by (by rewrite length_alter).
  by rewrite !alter_app_r.
Qed.

(** What a successful [find_seed_triangle] did. *)
Lemma find_seed_triangle_Return w self f w' self' :
  find_seed_triangle w self = Return f w' self' ->
  exists cloud first second third i1 i2 i3,
    point_cloud self = Array cloud /\ head cloud = Some first
    /\ (let '(ns, ds) := PointOps.find_neighbouring_vertices_with_distance first cloud (radius self) in
        PointOps.get_closest_point ns ds) = Some second
    /\ EdgeOps.find_third_point (Edge.init first second) cloud (radius self) (faces w) = Some third
    /\ head (np_where cloud first) = Some i1
    /\ head (np_where cloud second) = Some i2
    /\ head (np_where cloud third) = Some i3
    /\ f = Face.mk first second third (length (heap w)) (length (heap w) + 1) (length (heap w) + 2) i1 i2 i3
    /\ w' = seed_world w self first second third
    /\ self' = seed_self w self.
Proof.
  unfold find_seed_triangle, seed_world, seed_self.
  destruct self as [pc r it fl oe]; destruct w as [h fs es d wr]; cbn.
  intros H. unfold_py. cbn in H.
  destruct pc as [|cloud]; [discriminate|].
  destruct (head cloud) as [first|] eqn:Hfirst; [|discriminate].
  cbn in H.
  destruct (PointOps.get_closest_point _ _) as [second|] eqn:Hsecond; [|discriminate].
  cbn in H.
  destruct oe as [own|]; cbn in H.
  all: destruct (EdgeOps.find_third_point _ _ _ _) as [third|] eqn:Hthird; cbn in H.
  all: destruct (head (np_where cloud first)) as [i1|] eqn:H1; [|discriminate]; cbn in H.
  all: destruct (head (np_where cloud second)) as [i2|] eqn:H2; [|discriminate]; cbn in H.
  all: try discriminate.
  all: destruct (head (np_where cloud third)) as [i3|] eqn:H3; [|discriminate]; cbn in H.
  all: exists cloud, first, second, third, i1, i2, i3.
  all: inversion H; subst; clear H.
  all: unfold set_heap, set_own_edges, set_edges; cbn.
  all: rewrite ?length_app; cbn [length].
  all: rewrite <- ?app_assoc; cbn [app].
  all: replace (length h + 1 + 1) with (length h + 2) by lia.
  all: rewrite connect_fresh3.
  all: repeat split; done.
Qed.

(** What a successful [pivot_ball] did. *)
Lemma pivot_ball_Return edge w self f w' self' :
  pivot_ball edge w self = Return f w' self' ->
  exists r e cloud third i1 i2 i3,
    edge = Some r /\ heap w !! r = Some e
    /\ point_cloud self = Array cloud
    /\ EdgeOps.find_third_point e cloud (radius self) (faces w) = Some third
    /\ head (np_where cloud (Edge.p1 e)) = Some i1
    /\ head (np_where cloud (Edge.p2 e)) = Some i2
    /\ head (np_where cloud third) = Some i3
    /\ f = Face.mk (Edge.p1 e) (Edge.p2 e) third r (length (heap w)) (length (heap w) + 1) i1 i2 i3
    /\ w' = pivot_world w self r e third
    /\ self' = pivot_self w self e third.
Proof.
  unfold pivot_ball, pivot_world, pivot_self, self_edges.
  destruct edge as [r|]; [|discriminate].
  destruct self as [pc rad it fl oe]; destruct w as [h fs es d wr]; cbn.
  intros H. unfold_py. cbn in H.
  destruct (h !! r) as [e|] eqn:Hr; [|discriminate]. cbn in H.
  destruct pc as [|cloud]; [discriminate|]. cbn in H.
  assert (Hlt : r < length h) by (by eapply lookup_lt_Some).
  destruct oe as [own|]; cbn in H.
  all: destruct (EdgeOps.find_third_point _ _ _ _) as [third|] eqn:Hthird; cbn in H.
  all: destruct (head (np_where cloud (Edge.p1 e))) as [i1|] eqn:H1; [|discriminate]; cbn in H.
  all: destruct (head (np_where cloud (Edge.p2 e))) as [i2|] eqn:H2; [|discriminate]; cbn in H.
  all: try discriminate.
  all: destruct (head (np_where cloud third)) as [i3|] eqn:H3; [|discriminate]; cbn in H.
  all: exists r, e, cloud, third, i1, i2, i3.
  all: inversion H; subst; clear H.
  all: unfold set_heap, set_own_edges, set_edges, self_edges; cbn.
  all: rewrite ?length_app; cbn [length].
  all: rewrite <- ?app_assoc; cbn [app].
  all: rewrite connect_pivot by done.
  all: repeat split; done.
Qed.

(** *** The pivot predicate *)

(** The point that [find_third_point] returns passed the tests of steps 1, 2
    and 4. *)
Lemma first_reached_sound e cloud r fs cands : forall best p c,
  (forall q cb, best = Some (q, cb) ->
     EdgeOps.admissible e cloud r q = Some cb /\ q ∈ EdgeOps.candidates e cloud r fs) ->
  (forall q, q ∈ cands -> q ∈ EdgeOps.candidates e cloud r fs) ->
  EdgeOps.first_reached e cloud r fs best cands = Some (p, c) ->
  EdgeOps.admissible e cloud r p = Some c /\ p ∈ EdgeOps.candidates e cloud r fs.
Proof.
  induction cands as [|q rest IH]; intros best p c Hbest Hin Hres; cbn in Hres.
  - by apply Hbest.
  - assert (Hrest : forall x, x ∈ rest -> x ∈ EdgeOps.candidates e cloud r fs)
      by (intros x Hx; apply Hin; by right).
    assert (Hq : q ∈ EdgeOps.candidates e cloud r fs) by (apply Hin; by left).
    destruct (EdgeOps.admissible e cloud r q) as [cq|] eqn:Hadm.
    + destruct best as [[b cb]|].
      * destruct (reached_before _ _ _ _ _).
        -- eapply IH; [|done|done]. intros ? ? [= <- <-]. done.
        -- eapply IH; [|done|done]. done.
      * eapply IH; [|done|done]. intros ? ? [= <- <-]. done.
    + eapply IH; [|done|done]. done.
Qed.

Lemma find_third_point_Some e cloud r faces p :
  EdgeOps.find_third_point e cloud r faces = Some p ->
  (exists c, EdgeOps.admissible e cloud r p = Some c)
  /\ p ∈ cloud /\ p <> Edge.p1 e /\ p <> Edge.p2 e.
Proof.
  unfold EdgeOps.find_third_point. intros H.
  destruct (EdgeOps.first_reached _ _ _ _ _ _) as [[q c]|] eqn:Hfr; [|discriminate].
  cbn in H. injection H as ->.
  apply first_reached_sound in Hfr as [Hadm Hcand]; [|done|done].
  split; [by exists c|].
  unfold EdgeOps.candidates in Hcand.
  apply list_elem_of_In, filter_In in Hcand as [Hin Hq].
  apply list_elem_of_In in Hin.
  rewrite !andb_true_iff, !negb_true_iff in Hq.
  destruct Hq as [[[H1 H2] _] _].
  unfold Point.eqb in *. apply bool_decide_eq_false in H1, H2. done.
Qed.

Lemma admissible_empty e cloud r p c :
  EdgeOps.admissible e cloud r p = Some c ->
  ball_centre (Edge.p1 e) (Edge.p2 e) p r = Some c
  /\ forall q, q ∈ cloud -> q <> Edge.p1 e -> q <> Edge.p2 e -> q <> p ->
       strictly_inside c r q = false.
Proof.
  unfold EdgeOps.admissible. intros H.
  destruct (ball_centre _ _ _ _) as [c'|]; [|discriminate].
  destruct (EdgeOps.empty_ball _ _ _ _ _ _) eqn:Hempty; [|discriminate].
  injection H as ->. split; [done|].
  intros q Hq H1 H2 H3.
  unfold EdgeOps.empty_ball in Hempty. rewrite forallb_forall in Hempty.
  specialize (Hempty q (proj1 (list_elem_of_In _ _) Hq)).
  unfold Point.eqb in Hempty.
  rewrite !bool_decide_eq_false_2 in Hempty by done.
  cbn in Hempty. by apply negb_true_iff.
Qed.

Lemma emitted_rests_empty pc r f :
  emitted pc r f -> exists cloud, pc = Array cloud /\ rests_empty cloud r f.
Proof.
  intros (w & self & w' & self' & <- & <- & [H|[edge H]]).
  - apply find_seed_triangle_Return in H
      as (cloud & a & b & c & i1 & i2 & i3 & Hpc & _ & _ & H3 & _ & _ & _ & -> & _).
    exists cloud. split; [done|].
    apply find_third_point_Some in H3 as [[ctr Hadm] _].
    apply admissible_empty in Hadm as [Hc Hin]. by exists ctr.
  - apply pivot_ball_Return in H
      as (r & e & cloud & c & i1 & i2 & i3 & _ & _ & Hpc & H3 & _ & _ & _ & -> & _).
    exists cloud. split; [done|].
    apply find_third_point_Some in H3 as [[ctr Hadm] _].
    apply admissible_empty in Hadm as [Hc Hin]. by exists ctr.
Qed.

(** Claim C1.  Every face the engine emits, the seed face returned by
    [find_seed_triangle] as well as every face returned by [pivot_ball],
    rests on three points such that the ball of the engine's radius through
    them exists and has no other point of the cloud strictly inside. *)
Theorem sphere_emptiness w self f w' self' :
  find_seed_triangle w self = Return f w' self'
  \/ (exists edge, pivot_ball edge w self = Return f w' self') ->
  exists cloud, point_cloud self = Array cloud /\ rests_empty cloud (radius self) f.
Proof.
  intros H. apply emitted_rests_empty. exists w, self, w', self'. done.
Qed.

(** *** The loop *)

Lemma no_exit_bind {A B} (m : M A) (f : A -> M B) :
  no_exit m -> (forall a, no_exit (f a)) -> no_exit (bind m f).
Proof.
  intros Hm Hf w self w'. unfold bind.
  destruct (m w self) eqn:Hmw; [apply Hf|by apply Hm in Hmw|done].
Qed.

Lemma no_exit_ret {A} (a : A) : no_exit (ret a).
Proof. done. Qed.

Lemma no_exit_raise {A} e : no_exit (@raise _ A e).
Proof. done. Qed.

Lemma no_exit_expect {A} (o : option A) e : no_exit (expect o e).
Proof. by destruct o. Qed.

(** Case analysis on the scrutinees of the goal, innermost first. *)
Ltac is_plain x :=
  lazymatch x with
  | context [match _ with _ => _ end] => fail
  | _ => idtac
  end.

Ltac split_innermost :=
  repeat
    match goal with
    | |- context [match ?scrutinee with _ => _ end] =>
        is_plain scrutinee; destruct scrutinee
    end.

Ltac no_exit_step :=
  first
    [ apply no_exit_bind; [|intros ?]
    | apply no_exit_ret
    | apply no_exit_raise
    | apply no_exit_expect
    | match goal with
      | |- no_exit (match ?x with _ => _ end) => destruct x
      end
    | by (intros ? ? ?; unfold_py; cbn; repeat case_match) ].

Ltac no_exit := repeat no_exit_step.

Lemma find_seed_triangle_no_Exit : no_exit find_seed_triangle.
Proof. unfold find_seed_triangle. no_exit. Qed.

Lemma pivot_ball_no_Exit edge : no_exit (pivot_ball edge).
Proof. unfold pivot_ball. no_exit. Qed.

(** The second edge of a face that was just built has one connection, so
    [get_new_edge] offers it. *)
Lemma get_new_edge_second h f :
  Face.is_front h (Face.e2 f) = true -> Face.get_new_edge h f = Some (Face.e2 f).
Proof. intros H. unfold Face.get_new_edge. cbn. by rewrite H. Qed.

Lemma seed_front w self f w' self' :
  find_seed_triangle w self = Return f w' self' ->
  Face.is_front (heap w') (Face.e2 f) = true
  /\ Face.e2 f = length (heap w) + 1.
Proof.
  intros H.
  apply find_seed_triangle_Return in H
    as (cloud & a & b & c & i1 & i2 & i3 & _ & _ & _ & _ & _ & _ & _ & -> & -> & _).
  split; [|done].
  unfold Face.is_front, seed_world; cbn.
  rewrite lookup_app_r by lia.
  replace (length (heap w) + 1 - length (heap w)) with 1 by lia.
  done.
Qed.

Lemma pivot_front edge w self f w' self' :
  pivot_ball edge w self = Return f w' self' ->
  Face.is_front (heap w') (Face.e2 f) = true
  /\ Face.e2 f = length (heap w).
Proof.
  intros H.
  apply pivot_ball_Return in H
    as (r & e & cloud & c & i1 & i2 & i3 & _ & _ & _ & _ & _ & _ & _ & -> & -> & _).
  split; [|done].
  unfold Face.is_front, pivot_world; cbn.
  rewrite lookup_app_r by (rewrite length_alter; lia).
  rewrite length_alter, Nat.sub_diag. done.
Qed.

Lemma next_front_found rest k r w self :
  next_front rest k (Some r) w self = Return (Some r) w self.
Proof. by destruct rest. Qed.

(** One turn of the [for] loop: the face of [pivot_ball] is appended, and
    its second edge is the next edge at once; the scan of lines 192 to 196
    ends at its first test. *)
Lemma step_eq edge w self :
  step edge w self =
  match pivot_ball edge w self with
  | Return f w1 s1 => Return (Some (Face.e2 f)) (set_faces w1 (faces w1 ++ [f])) s1
  | Exit w1 => Exit w1
  | Raise e fs => Raise e fs
  end.
Proof.
  unfold step, bind at 1.
  destruct (pivot_ball edge w self) as [f w1 s1| |] eqn:Hp; [|done|done].
  apply pivot_front in Hp as [Hf _]. apply get_new_edge_second in Hf.
  unfold_py. cbn [heap set_faces]. rewrite Hf. apply next_front_found.
Qed.

Lemma same_config_refl a : same_config a a.
Proof. done. Qed.

Lemma same_config_trans a b c : same_config a b -> same_config b c -> same_config a c.
Proof. unfold same_config. intros (?&?&?&?) (?&?&?&?). repeat split; congruence. Qed.

Lemma seed_config w self f w' self' :
  find_seed_triangle w self = Return f w' self' ->
  same_config self self' /\ faces w' = faces w /\ disk w' = disk w /\ written w' = written w.
Proof.
  intros H.
  apply find_seed_triangle_Return in H
    as (cloud & a & b & c & i1 & i2 & i3 & _ & _ & _ & _ & _ & _ & _ & _ & -> & ->).
  unfold seed_self, seed_world. destruct (own_edges self); done.
Qed.

Lemma pivot_config edge w self f w' self' :
  pivot_ball edge w self = Return f w' self' ->
  same_config self self' /\ faces w' = faces w /\ disk w' = disk w /\ written w' = written w.
Proof.
  intros H.
  apply pivot_ball_Return in H
    as (r & e & cloud & c & i1 & i2 & i3 & _ & _ & _ & _ & _ & _ & _ & _ & -> & ->).
  done.
Qed.

Lemma loop_no_Exit n : forall edge, no_exit (loop n edge).
Proof.
  induction n as [|n IH]; intros edge; cbn; [apply no_exit_ret|].
  apply no_exit_bind; [|done].
  intros w self w'. rewrite step_eq.
  destruct (pivot_ball edge w self) eqn:Hp; [done| |done].
  by apply pivot_ball_no_Exit in Hp.
Qed.

(** [n] turns of the loop append [n] faces. *)
Lemma loop_Return n : forall edge w self w' self',
  loop n edge w self = Return tt w' self' ->
  exists new,
    length new = n /\ faces w' = faces w ++ new
    /\ Forall (emitted (point_cloud self) (radius self)) new
    /\ same_config self self' /\ disk w' = disk w /\ written w' = written w.
Proof.
  induction n as [|n IH]; intros edge w self w' self' H; cbn in H.
  - injection H as <- <-. exists []. by rewrite app_nil_r.
  - unfold bind in H. rewrite step_eq in H.
    destruct (pivot_ball edge w self) as [f w1 s1| |] eqn:Hp; [|done|done].
    apply IH in H as (new & Hlen & Hfaces & Hall & Hcfg & Hdisk & Hwr).
    destruct (pivot_config _ _ _ _ _ _ Hp) as (Hcfg1 & Hf1 & Hd1 & Hw1).
    exists (f :: new). cbn in *.
    rewrite Hfaces, Hf1, <- app_assoc. cbn.
    split; [congruence|]. split; [done|]. split; [|split; [|split; congruence]].
    + constructor.
      * exists w, self, w1, s1. eauto.
      * destruct Hcfg1 as (-> & -> & _). done.
    + by eapply same_config_trans.
Qed.

(** *** [write_to_file] and [run] *)

Lemma write_to_file_Return arg w self w' self' :
  write_to_file arg w self = Return tt w' self' ->
  exists loc mesh cloud_file cloud,
    (match arg with Some l => Some l | None => file_location self end) = Some loc
    /\ edited_name loc "_edited" = Some mesh
    /\ edited_name loc "_point_cloud" = Some cloud_file
    /\ point_cloud self = Array cloud
    /\ w' = set_written w
              (written w ++ [(mesh, mesh_lines loc cloud (faces w));
                             (cloud_file, Comment loc :: List.map vertex_line cloud)])
    /\ self' = self.
Proof.
  unfold write_to_file. unfold_py. cbn. intros H.
  destruct (match arg with Some l => _ | None => _ end) as [loc|]; [|done].
  destruct (edited_name loc "_edited") as [mesh|] eqn:Hmesh; [|done].
  destruct (point_cloud self) as [|cloud] eqn:Hpc; [done|]. cbn in H.
  destruct (edited_name loc "_point_cloud") as [cf|] eqn:Hcf; [|done].
  injection H as <- <-.
  exists loc, mesh, cf, cloud. repeat split; try done.
  unfold set_written, mesh_lines, self_faces. cbn. by rewrite <- app_assoc.
Qed.

Lemma write_to_file_no_Exit arg : no_exit (write_to_file arg).
Proof. unfold write_to_file. no_exit. Qed.

Lemma run_no_Exit : no_exit run.
Proof.
  unfold run. apply no_exit_bind; [apply find_seed_triangle_no_Exit|intros f].
  apply no_exit_bind; [by intros ? ? ?|intros _].
  apply no_exit_bind; [by intros ? ? ?|intros w0].
  apply no_exit_bind; [by intros ? ? ?|intros s0].
  apply no_exit_bind; [apply loop_no_Exit|intros _].
  apply write_to_file_no_Exit.
Qed.

Lemma run_Return w self w' self' :
  run w self = Return tt w' self' ->
  exists seed w1 s1 w2 s2,
    find_seed_triangle w self = Return seed w1 s1
    /\ loop (Z.to_nat (iterations self)) (Some (Face.e2 seed))
         (set_faces w1 (faces w1 ++ [seed])) s1 = Return tt w2 s2
    /\ write_to_file None w2 s2 = Return tt w' self'.
Proof.
  unfold run. unfold bind at 1. intros H.
  destruct (find_seed_triangle w self) as [seed w1 s1| |] eqn:Hseed; [|done|done].
  destruct (seed_front _ _ _ _ _ Hseed) as [Hfront _].
  apply get_new_edge_second in Hfront.
  destruct (seed_config _ _ _ _ _ Hseed) as [(_ & _ & Hit & _) _].
  unfold_py. cbn [heap set_faces] in H.
  rewrite Hfront, <- Hit in H.
  destruct (loop _ _ _ _) as [[] w2 s2| |] eqn:Hloop; [|done|done].
  exists seed, w1, s1, w2, s2. done.
Qed.

(** A run that returns appended the seed face and one face per turn, and
    wrote the cloud and all faces of the list. *)
Lemma run_faces w self w' self' :
  run w self = Return tt w' self' ->
  exists seed new loc mesh cloud_file cloud,
    point_cloud self = Array cloud
    /\ file_location self = Some loc
    /\ edited_name loc "_edited" = Some mesh
    /\ edited_name loc "_point_cloud" = Some cloud_file
    /\ length new = Z.to_nat (iterations self)
    /\ Forall (emitted (point_cloud self) (radius self)) (seed :: new)
    /\ faces w' = faces w ++ seed :: new
    /\ written w' = written w ++ [(mesh, mesh_lines loc cloud (faces w'));
                                   (cloud_file, Comment loc :: List.map vertex_line cloud)]
    /\ disk w' = disk w
    /\ same_config self self'.
Proof.
  intros H.
  apply run_Return in H as (seed & w1 & s1 & w2 & s2 & Hseed & Hloop & Hwrite).
  destruct (seed_config _ _ _ _ _ Hseed) as (Hc1 & Hf1 & Hd1 & Hw1).
  apply loop_Return in Hloop as (new & Hlen & Hf2 & Hall & Hc2 & Hd2 & Hw2).
  apply write_to_file_Return in Hwrite
    as (loc & mesh & cf & cloud & Hloc & Hmesh & Hcf & Hpc & -> & ->).
  cbn in *.
  pose proof (same_config_trans _ _ _ Hc1 Hc2) as Hc.
  destruct Hc as (Hpc' & Hr' & Hit' & Hfl').
  destruct Hc1 as (Hpc1 & Hr1 & _).
  exists seed, new, loc, mesh, cf, cloud.
  split; [congruence|]. split; [congruence|]. split; [done|]. split; [done|].
  split; [done|]. split.
  { constructor.
    - exists w, self, w1, s1. eauto.
    - by rewrite Hpc1, Hr1. }
  split; [by rewrite Hf2, Hf1, <- app_assoc|].
  split; [by rewrite Hw2, Hw1|].
  split; [congruence|done].
Qed.

(** Claim C3, as the code behaves.  With the iteration cap 1, a run that
    returns has appended two faces, the seed face and the face of the one
    pivot, and both are in the mesh file it wrote: never the seed alone. *)
Theorem run_cap_one_two_faces w self w' self' :
  iterations self = 1%Z ->
  run w self = Return tt w' self' ->
  exists seed f loc mesh cloud,
    faces w' = faces w ++ [seed; f]
    /\ point_cloud self = Array cloud
    /\ (mesh, mesh_lines loc cloud (faces w ++ [seed; f])) ∈ written w'.
Proof.
  intros Hit H.
  apply run_faces in H
    as (seed & new & loc & mesh & cf & cloud & Hpc & _ & _ & _ & Hlen & _ & Hf & Hw & _).
  rewrite Hit in Hlen.
  destruct new as [|f [|? ?]]; try discriminate.
  exists seed, f, loc, mesh, cloud.
  split; [done|]. split; [done|].
  rewrite Hw, Hf. apply elem_of_app. right. by left.
Qed.

(** *** The fall-back scan *)

Lemma next_front_None rest k w self :
  next_front rest k None w self =
  if length (self_faces w self) <? k then (write_to_file None ;; quit) w self
  else match rest with
       | [] => Raise (IndexError "self.faces[k]") (written w)
       | f :: rest' => next_front rest' (Datatypes.S k) (Face.get_new_edge (heap w) f) w self
       end.
Proof.
  destruct rest; cbn [next_front]; unfold bind at 1 2, get_world, get_self;
    by destruct (_ <? _).
Qed.



(** The scan does not reach [quit()]. *)
Lemma next_front_no_Exit w self : forall rest k edge w',
  length rest + k = length (self_faces w self) ->
  next_front rest k edge w self <> Exit w'.
Proof.
  induction rest as [|f rest IH]; intros k edge w' Hlen.
  all: destruct edge; [by rewrite next_front_found|]; rewrite next_front_None.
  all: rewrite (proj2 (Nat.ltb_ge _ _)) by (cbn in Hlen; lia).
  - done.
  - apply IH. cbn in Hlen. lia.
Qed.

(** *** Failure of the seed *)

Lemma run_seed_Raise w self e fs :
  find_seed_triangle w self = Raise e fs -> run w self = Raise e fs.
Proof. intros H. unfold run, bind at 1. by rewrite H. Qed.

Lemma seed_no_neighbour w self cloud first :
  point_cloud self = Array cloud -> head cloud = Some first ->
  fst (PointOps.find_neighbouring_vertices_with_distance first cloud (radius self)) = [] ->
  find_seed_triangle w self
  = Raise (LookupError "first_point.get_closest_point(neighbours, distances)") (written w).
Proof.
  intros Hpc Hfirst Hnone.
  unfold find_seed_triangle. unfold_py. rewrite Hpc, Hfirst. cbn in *.
  by rewrite Hnone.
Qed.



(** *** Shared accumulators *)

(** Claim C5, amended.  The face list is one list shared by all instances:
    the faces that [run] on [a] appends are in the face list of every other
    instance [b].  The edge list is shared in the same way as long as the
    instances have none of their own: the three edges of a seed found by [a]
    show up in the edge list of [b].  A successful [pivot_ball] gives its
    instance an edge list of its own, which does not depend on the store any
    more. *)
Theorem class_level_accumulators (w : World) (a b : Engine) :
  (forall w' a', run w a = Return tt w' a' ->
     exists new,
       length new = Datatypes.S (Z.to_nat (iterations a))
       /\ self_faces w' b = self_faces w b ++ new
       /\ self_faces w' a' = self_faces w' b)
  /\ (forall f w' a', find_seed_triangle w a = Return f w' a' ->
        own_edges a = None -> own_edges b = None ->
        self_edges w' b
        = self_edges w b ++ [length (heap w); length (heap w) + 1; length (heap w) + 2])
  /\ (forall edge f w' a', pivot_ball edge w a = Return f w' a' ->
        exists es, own_edges a' = Some es /\ forall w2, self_edges w2 a' = es).
Proof.
  split; [|split].
  - intros w' a' H.
    apply run_faces in H
      as (seed & new & _ & _ & _ & _ & _ & _ & _ & _ & Hlen & _ & Hf & _).
    exists (seed :: new). cbn. by rewrite Hlen.
  - intros f w' a' H Ha Hb.
    apply find_seed_triangle_Return in H
      as (cloud & p & q & c & i1 & i2 & i3 & _ & _ & _ & _ & _ & _ & _ & _ & -> & _).
    unfold self_edges, seed_world. rewrite Ha, Hb. done.
  - intros edge f w' a' H.
    apply pivot_ball_Return in H
      as (r & e & cloud & c & i1 & i2 & i3 & _ & _ & _ & _ & _ & _ & _ & _ & _ & ->).
    eexists. split; [reflexivity|]. done.
Qed.

(** *** The connection bound *)

Lemma seed_bounded w self f w' self' :
  bounded (heap w) ->
  find_seed_triangle w self = Return f w' self' ->
  bounded (heap w') /\ Face.is_front (heap w') (Face.e2 f) = true.
Proof.
  intros Hb H.
  destruct (seed_front _ _ _ _ _ H) as [Hfront _].
  split; [|done].
  apply find_seed_triangle_Return in H
    as (cloud & p & q & c & i1 & i2 & i3 & _ & _ & _ & _ & _ & _ & _ & -> & -> & _).
  unfold seed_world, bounded in *. cbn. apply Forall_app. split; [done|].
  repeat constructor; cbn; lia.
Qed.

Lemma pivot_bounded r w self f w' self' :
  bounded (heap w) -> Face.is_front (heap w) r = true ->
  pivot_ball (Some r) w self = Return f w' self' ->
  bounded (heap w') /\ Face.is_front (heap w') (Face.e2 f) = true.
Proof.
  intros Hb Hr H.
  destruct (pivot_front _ _ _ _ _ _ H) as [Hfront _].
  split; [|done].
  apply pivot_ball_Return in H
    as (r' & e & cloud & c & i1 & i2 & i3 & [= <-] & He & _ & _ & _ & _ & _ & -> & -> & _).
  unfold pivot_world, bounded in *. cbn. apply Forall_app. split.
  - apply Forall_alter; [done|]. intros e' He' _.
    unfold Face.is_front in Hr. rewrite He' in Hr.
    apply Nat.ltb_lt in Hr. cbn. lia.
  - repeat constructor; cbn; lia.
Qed.

Lemma loop_bounded n : forall r w self w' self',
  bounded (heap w) -> Face.is_front (heap w) r = true ->
  loop n (Some r) w self = Return tt w' self' ->
  bounded (heap w').
Proof.
  induction n as [|n IH]; intros r w self w' self' Hb Hr H; cbn in H.
  - by injection H as <- <-.
  - unfold bind in H. rewrite step_eq in H.
    destruct (pivot_ball (Some r) w self) as [f w1 s1| |] eqn:Hp; [|done|done].
    destruct (pivot_bounded _ _ _ _ _ _ Hb Hr Hp) as [Hb1 Hr1].
    eapply IH; [| |exact H]; done.
Qed.

(** No run takes an edge beyond two connections. *)
Lemma run_connection_bound w self w' self' :
  bounded (heap w) ->
  run w self = Return tt w' self' ->
  bounded (heap w').
Proof.
  intros Hb H.
  apply run_Return in H as (seed & w1 & s1 & w2 & s2 & Hseed & Hloop & Hwrite).
  destruct (seed_bounded _ _ _ _ _ Hb Hseed) as [Hb1 Hr1].
  apply loop_bounded in Hloop; [|done|done].
  apply write_to_file_Return in Hwrite as (? & ? & ? & ? & _ & _ & _ & _ & -> & _).
  done.
Qed.


(** *** Indices *)

Lemma emitted_resolves pc r f :
  emitted pc r f -> exists cloud, pc = Array cloud /\ resolves cloud f.
Proof.
  intros (w & self & w' & self' & <- & <- & [H|[edge H]]).
  - apply find_seed_triangle_Return in H
      as (cloud & a & b & c & i1 & i2 & i3 & Hpc & _ & _ & _ & H1 & H2 & H3 & -> & _).
    exists cloud. split; [done|].
    repeat split; cbn; by apply np_where_head.
  - apply pivot_ball_Return in H
      as (r & e & cloud & c & i1 & i2 & i3 & _ & _ & Hpc & _ & H1 & H2 & H3 & -> & _).
    exists cloud. split; [done|].
    repeat split; cbn; by apply np_where_head.
Qed.



(** *** Construction *)

(** The constructor on a readable object file. *)
Lemma init_from_file r file iters w lines points :
  file <> "" ->
  List.last (str_split "." file) "" = "obj" ->
  disk w file = Some lines ->
  read_points lines [] = inr points ->
  __init__ r None (Some file) iters w
  = Return tt w (mkEngine (Array points) r (stored_iterations iters points) (Some file) None).
Proof.
  intros Hne Hext Hdisk Hread.
  unfold __init__, init_body, cloud_or_default, open_point_cloud, cloud_len,
    stored_iterations.
  unfold_py. cbn.
  rewrite (proj2 (String.eqb_neq _ _) Hne), Hext. cbn.
  rewrite Hdisk, Hread. cbn.
  destruct iters as [n|]; [|done].
  by destruct (n =? 0)%Z.
Qed.

Lemma run_empty_cloud w self :
  point_cloud self = Array [] ->
  run w self = Raise (IndexError "self.point_cloud[0]") (written w).
Proof.
  intros H. apply run_seed_Raise.
  unfold find_seed_triangle. unfold_py. by rewrite H.
Qed.

(** Claim C9, amended.  The constructor validates nothing: for every radius
    and every object file that can be read it returns an engine with that
    radius and the points of the file, however few.  An empty cloud makes
    [run] fail on [self.point_cloud[0]] with an [IndexError], before the
    loop and before anything is written. *)
Theorem constructor_validates_nothing r file iters w lines points :
  file <> "" ->
  List.last (str_split "." file) "" = "obj" ->
  disk w file = Some lines ->
  read_points lines [] = inr points ->
  exists bpa,
    __init__ r None (Some file) iters w = Return tt w bpa
    /\ radius bpa = r
    /\ point_cloud bpa = Array points
    /\ (points = [] ->
        run w bpa = Raise (IndexError "self.point_cloud[0]") (written w)).
Proof.
  intros Hne Hext Hdisk Hread.
  eexists. split; [by eapply init_from_file|].
  split; [done|]. split; [done|].
  intros ->. by apply run_empty_cloud.
Qed.

Lemma init_Return_cloud r cloud file iters w w' self items :
  __init__ r cloud file iters w = Return tt w' self ->
  point_cloud self = Array items ->
  2 <= length items ->
  exists f lines,
    file = Some f /\ f <> "" /\ file_location self = Some f
    /\ disk w f = Some lines /\ read_points lines [] = inr items.
Proof.
  unfold __init__, init_body, cloud_or_default, open_point_cloud, cloud_len.
  intros H Hpc Hlen. unfold_py.
  destruct cloud as [[|p [|q rest]]|]; cbn -[String.eqb str_split read_points] in H;
    try done.
  all: destruct file as [f|]; cbn -[String.eqb str_split read_points] in H.
  all: try (destruct (String.eqb_spec f "") as [->|Hne];
            cbn -[String.eqb str_split read_points] in H).
  all: try (destruct (String.eqb _ "obj");
            cbn -[String.eqb str_split read_points] in H; [|done]).
  all: try (destruct (disk w f) as [lines|] eqn:Hdisk;
            cbn -[String.eqb str_split read_points] in H; [|done]).
  all: try (destruct (read_points lines []) as [e|pts] eqn:Hread;
            cbn -[String.eqb str_split read_points] in H; [done|]).
  all: destruct iters as [n|]; [destruct (n =? 0)%Z|];
    cbn -[String.eqb str_split read_points] in H; simplify_eq.
  all: cbn in *; simplify_eq; cbn in *; try lia.
  all: by exists f, lines.
Qed.

(** Claim C10.  A constructor call that is given an array of two or more
    points raises the [ValueError] of line 30, whatever the other
    arguments; hence an engine whose cloud has two or more points was
    constructed from a file. *)
Theorem direct_cloud_raises r cloud file iters w :
  (forall items, cloud = Some items -> 2 <= length items ->
     __init__ r cloud file iters w
     = Raise (ValueError "point_cloud or np.ndarray([])") (written w))
  /\ (forall w' self items,
        __init__ r cloud file iters w = Return tt w' self ->
        point_cloud self = Array items -> 2 <= length items ->
        exists f lines,
          file = Some f /\ f <> "" /\ file_location self = Some f
          /\ disk w f = Some lines /\ read_points lines [] = inr items).
Proof.
  split.
  - intros items -> Hlen.
    destruct items as [|p [|q rest]]; cbn in Hlen; try lia. done.
  - intros w' self items. apply init_Return_cloud.
Qed.

(** *** Equality of edges *)

Lemma Point_eqb_refl (p : Point.t) : Point.eqb p p = true.
Proof. by apply bool_decide_eq_true. Qed.

Lemma Point_eqb_sym (p q : Point.t) : Point.eqb p q = Point.eqb q p.
Proof. apply bool_decide_ext. split; congruence. Qed.

Lemma Edge_eqb_sym (e e' : Edge.t) : Edge.eqb e e' = Edge.eqb e' e.
Proof.
  unfold Edge.eqb.
  rewrite (Point_eqb_sym (Edge.p1 e') (Edge.p1 e)), (Point_eqb_sym (Edge.p2 e') (Edge.p2 e)),
    (Point_eqb_sym (Edge.p1 e') (Edge.p2 e)), (Point_eqb_sym (Edge.p2 e') (Edge.p1 e)).
  repeat match goal with
         | |- context [Point.eqb ?a ?b] => destruct (Point.eqb a b)
         end; done.
Qed.

Lemma Edge_eqb_swap (a b : Point.t) n m :
  Edge.eqb (Edge.mk a b n) (Edge.mk b a m) = true.
Proof.
  unfold Edge.eqb. cbn. rewrite !Point_eqb_refl. by rewrite orb_true_r.
Qed.

(** *** What a failing run leaves behind *)

Lemma quiet_bind {A B} (m : M A) (f : A -> M B) :
  quiet m -> (forall a, quiet (f a)) -> quiet (bind m f).
Proof.
  intros Hm Hf w self. unfold bind. specialize (Hm w self).
  destruct (m w self) as [a w1 s1| |]; [|done|done].
  specialize (Hf a w1 s1). destruct (f a w1 s1); congruence.
Qed.

Lemma quiet_ret {A} (a : A) : quiet (ret a).
Proof. done. Qed.

Lemma quiet_raise {A} e : quiet (@raise _ A e).
Proof. done. Qed.

Lemma quiet_expect {A} (o : option A) e : quiet (expect o e).
Proof. by destruct o. Qed.

Ltac quiet_step :=
  first
    [ apply quiet_bind; [|intros ?]
    | apply quiet_ret
    | apply quiet_raise
    | apply quiet_expect
    | match goal with
      | |- quiet (match ?x with _ => _ end) => destruct x
      end
    | by (intros ? ?; unfold_py; cbn; split_innermost) ].

Ltac quiet := repeat quiet_step.

Lemma find_seed_triangle_quiet : quiet find_seed_triangle.
Proof. unfold find_seed_triangle. quiet. Qed.

Lemma pivot_ball_quiet edge : quiet (pivot_ball edge).
Proof. unfold pivot_ball. quiet. Qed.

Lemma loop_quiet n : forall edge, quiet (loop n edge).
Proof.
  induction n as [|n IH]; intros edge; cbn; [apply quiet_ret|].
  apply quiet_bind; [|done].
  intros w self. rewrite step_eq.
  pose proof (pivot_ball_quiet edge w self) as H.
  by destruct (pivot_ball edge w self).
Qed.

Lemma edited_name_some loc s s' name :
  edited_name loc s = Some name -> exists name', edited_name loc s' = Some name'.
Proof.
  unfold edited_name. destruct (_ <? 2); [done|]. eauto.
Qed.

Lemma write_to_file_Raise arg w self cloud e fs :
  point_cloud self = Array cloud ->
  write_to_file arg w self = Raise e fs -> fs = written w.
Proof.
  intros Hpc. unfold write_to_file. unfold_py. cbn. rewrite Hpc.
  destruct (match arg with Some l => _ | None => _ end) as [loc|]; [|by intros [= _ <-]].
  destruct (edited_name loc "_edited") as [mesh|] eqn:Hmesh; [|by intros [= _ <-]].
  cbn.
  destruct (edited_name_some _ _ "_point_cloud" _ Hmesh) as [cf ->].
  done.
Qed.

(** A run that raises has written no file. *)
Lemma run_Raise_writes_nothing w self e fs :
  run w self = Raise e fs -> fs = written w.
Proof.
  unfold run. unfold bind at 1. intros H.
  pose proof (find_seed_triangle_quiet w self) as Hq.
  destruct (find_seed_triangle w self) as [seed w1 s1| |] eqn:Hseed;
    [|done|by injection H as _ <-].
  destruct (seed_front _ _ _ _ _ Hseed) as [Hfront _].
  apply get_new_edge_second in Hfront.
  apply find_seed_triangle_Return in Hseed
    as (cloud & a & b & c & i1 & i2 & i3 & Hpc & _ & _ & _ & _ & _ & _ & _ & _ & Hs1).
  unfold_py. cbn [heap set_faces] in H. rewrite Hfront in H.
  pose proof (loop_quiet (Z.to_nat (iterations s1)) (Some (Face.e2 seed))
                (set_faces w1 (faces w1 ++ [seed])) s1) as Hl.
  destruct (loop _ _ _ _) as [[] w2 s2| |] eqn:Hloop; [|done|].
  - apply loop_Return in Hloop as (_ & _ & _ & _ & (Hpc2 & _) & _ & _).
    eapply write_to_file_Raise in H.
    + cbn in Hl. congruence.
    + rewrite <- Hpc2, Hs1. unfold seed_self. destruct (own_edges self); exact Hpc.
  - injection H as _ <-. cbn in Hl. congruence.
Qed.

(** *** Every face of a run *)

Lemma run_faces_rest_empty w self w' self' :
  run w self = Return tt w' self' ->
  exists cloud new,
    point_cloud self = Array cloud
    /\ faces w' = faces w ++ new
    /\ Forall (rests_empty cloud (radius self)) new.
Proof.
  intros H.
  apply run_faces in H
    as (seed & new & loc & mesh & cf & cloud & Hpc & _ & _ & _ & _ & Hall & Hf & _).
  exists cloud, (seed :: new). split; [done|]. split; [done|].
  eapply Forall_impl; [exact Hall|].
  intros f Hf'. apply emitted_rests_empty in Hf' as (cloud' & Heq & Hrest).
  rewrite Hpc in Heq. by injection Heq as ->.
Qed.

Lemma run_faces_resolve w self w' self' :
  run w self = Return tt w' self' ->
  exists cloud new,
    point_cloud self = Array cloud
    /\ faces w' = faces w ++ new
    /\ Forall (resolves cloud) new.
Proof.
  intros H.
  apply run_faces in H
    as (seed & new & loc & mesh & cf & cloud & Hpc & _ & _ & _ & _ & Hall & Hf & _).
  exists cloud, (seed :: new). split; [done|]. split; [done|].
  eapply Forall_impl; [exact Hall|].
  intros f Hf'. apply emitted_resolves in Hf' as (cloud' & Heq & Hres).
  rewrite Hpc in Heq. by injection Heq as ->.
Qed.

(** [pivot_ball] builds every face on two [Edge] objects made for it: the
    second and the third edge of the face are the two addresses allocated
    by the call, whatever [self.edges] holds. *)
Lemma pivot_ball_allocates edge w self f w' self' :
  pivot_ball edge w self = Return f w' self' ->
  Face.e2 f = length (heap w) /\ Face.e3 f = length (heap w) + 1
  /\ length (heap w') = length (heap w) + 2.
Proof.
  intros H.
  apply pivot_ball_Return in H
    as (r & e & cloud & c & i1 & i2 & i3 & _ & _ & _ & _ & _ & _ & _ & -> & -> & _).
  unfold pivot_world. cbn. rewrite length_app, length_alter. cbn. done.
Qed.

(** The scan in terms of the index: with [self.faces[k:]] for [rest], one
    turn of the loop tests [k > len(self.faces)], reads [self.faces[k]] and
    goes on with [k + 1]. *)
Lemma next_front_indexed w self k :
  next_front (drop k (self_faces w self)) k None w self =
  if length (self_faces w self) <? k then (write_to_file None ;; quit) w self
  else match self_faces w self !! k with
       | None => Raise (IndexError "self.faces[k]") (written w)
       | Some face =>
           next_front (drop (Datatypes.S k) (self_faces w self)) (Datatypes.S k)
             (Face.get_new_edge (heap w) face) w self
       end.
Proof.
  rewrite next_front_None.
  destruct (_ <? _); [done|].
  destruct (self_faces w self !! k) as [face|] eqn:Hk.
  - by rewrite (drop_S _ _ _ Hk).
  - apply lookup_ge_None in Hk. by rewrite drop_ge.
Qed.

End proofs.

(** ** Runs on the sample inputs *)

Section samples.
Import Exact Sample.

Example init_square :
  __init__ 2%Q None (Some "square.obj") (Some 1%Z) start
  = Return tt start (square_engine 1).
Proof. reflexivity. Qed.

Example init_sparse :
  __init__ 1%Q None (Some "sparse.obj") None start = Return tt start sparse_engine.
Proof. reflexivity. Qed.

Example seed_square :
  find_seed_triangle start (square_engine 1)
  = Return seed_face (seed_world start (square_engine 1) A B C) (square_engine 1).
Proof. reflexivity. Qed.

Example run_square_1 : run start (square_engine 1) = Return tt finished_1 (engine2 1).
Proof. reflexivity. Qed.

Example run_square_2 : run start (square_engine 2) = Return tt finished_2 (engine3 2).
Proof. reflexivity. Qed.

(** The mesh file of the run with the cap 1. *)
Example mesh_square_1 :
  written finished_1 !! 0
  = Some ("square_edited.obj",
          [Comment "square.obj"; Vertex 0%Q 0%Q 0%Q; Vertex 1%Q 0%Q 0%Q;
           Vertex 1%Q 1%Q 0%Q; Vertex 0%Q 1%Q 0%Q; Blank;
           Triangle 1 2 3; Triangle 2 3 4]).
Proof. reflexivity. Qed.

(** A third pivot on the square finds no point, and the run dies. *)
Example run_square_3 :
  run start (square_engine 3)
  = Raise (IndexError "np.where(self.point_cloud == third_point)[0][0]") [].
Proof. reflexivity. Qed.

(** A negative cap leaves the seed alone. *)
Example run_square_negative :
  exists w self, run start (square_engine (-1)) = Return tt w self
                 /\ faces w = [seed_face].
Proof.
  exists (set_written (seeded (-1)) (output [seed_face])), (square_engine (-1)).
  split; reflexivity.
Qed.

Example seed_aligned :
  find_seed_triangle start aligned_engine
  = Raise (IndexError "np.where(self.point_cloud == third_point)[0][0]") [].
Proof. reflexivity. Qed.

(** *** Instances of the statements *)

Lemma sphere_emptiness_witness :
  (find_seed_triangle start (square_engine 1)
   = Return seed_face (seed_world start (square_engine 1) A B C) (square_engine 1)
   \/ exists edge,
        pivot_ball edge start (square_engine 1)
        = Return seed_face (seed_world start (square_engine 1) A B C) (square_engine 1))
  /\ exists cloud,
       point_cloud (square_engine 1) = Array cloud
       /\ rests_empty cloud (radius (square_engine 1)) seed_face.
Proof.
  assert (H : find_seed_triangle start (square_engine 1)
              = Return seed_face (seed_world start (square_engine 1) A B C)
                  (square_engine 1)) by reflexivity.
  split; [left; exact H|].
  apply (sphere_emptiness start (square_engine 1) seed_face
           (seed_world start (square_engine 1) A B C) (square_engine 1)).
  left. exact H.
Defined.


Lemma run_cap_one_two_faces_witness :
  iterations (square_engine 1) = 1%Z
  /\ run start (square_engine 1) = Return tt finished_1 (engine2 1)
  /\ exists seed f loc mesh cloud,
       faces finished_1 = faces start ++ [seed; f]
       /\ point_cloud (square_engine 1) = Array cloud
       /\ (mesh, mesh_lines loc cloud (faces start ++ [seed; f])) ∈ written finished_1.
Proof.
  split; [reflexivity|]. split; [reflexivity|].
  apply (run_cap_one_two_faces start (square_engine 1) finished_1 (engine2 1));
    reflexivity.
Defined.



(** Claim C5 as stated fails: a run of the engine on the square changes the
    face list of the engine on the sparse cloud, from no face to two. *)
Lemma other_instance_sees_faces :
  run start (square_engine 1) = Return tt finished_1 (engine2 1)
  /\ self_faces start sparse_engine = []
  /\ self_faces finished_1 sparse_engine = [seed_face; face2].
Proof. repeat split; reflexivity. Qed.

Lemma class_level_accumulators_witness :
  (run start (square_engine 1) = Return tt finished_1 (engine2 1)
   /\ exists new,
        length new = Datatypes.S (Z.to_nat (iterations (square_engine 1)))
        /\ self_faces finished_1 sparse_engine = self_faces start sparse_engine ++ new
        /\ self_faces finished_1 (engine2 1) = self_faces finished_1 sparse_engine)
  /\ (find_seed_triangle start (square_engine 1)
      = Return seed_face (seed_world start (square_engine 1) A B C) (square_engine 1)
      /\ own_edges (square_engine 1) = None
      /\ own_edges sparse_engine = None
      /\ self_edges (seed_world start (square_engine 1) A B C) sparse_engine
         = self_edges start sparse_engine
             ++ [length (heap start); length (heap start) + 1; length (heap start) + 2])
  /\ (pivot_ball (Some 1) (seeded 1) (square_engine 1)
      = Return face2 (pivot_world (seeded 1) (square_engine 1) 1 (Edge.mk B C 1) D)
          (engine2 1)
      /\ exists es, own_edges (engine2 1) = Some es
                    /\ forall w2, self_edges w2 (engine2 1) = es).
Proof.
  pose proof (class_level_accumulators start (square_engine 1) sparse_engine)
    as (Hrun & Hseed & _).
  pose proof (class_level_accumulators (seeded 1) (square_engine 1) sparse_engine)
    as (_ & _ & Hpivot).
  split; [|split].
  - split; [reflexivity|]. apply (Hrun finished_1 (engine2 1)). reflexivity.
  - split; [reflexivity|]. split; [reflexivity|]. split; [reflexivity|].
    apply (Hseed seed_face (seed_world start (square_engine 1) A B C) (square_engine 1));
      reflexivity.
  - split; [reflexivity|].
    apply (Hpivot (Some 1) face2
             (pivot_world (seeded 1) (square_engine 1) 1 (Edge.mk B C 1) D) (engine2 1)).
    reflexivity.
Defined.




(** Claim C9 as stated fails: the constructor takes the radius -1 and
    returns an engine.  The run of that engine ends in seed discovery, with
    the lookup failure of [get_closest_point] on no candidate. *)
Lemma constructor_accepts_negative_radius :
  __init__ (-1)%Q None (Some "square.obj") None start
  = Return tt start (mkEngine (Array square) (-1)%Q 4 (Some "square.obj") None)
  /\ run start (mkEngine (Array square) (-1)%Q 4 (Some "square.obj") None)
     = Raise (LookupError "first_point.get_closest_point(neighbours, distances)") [].
Proof. split; reflexivity. Qed.

Lemma constructor_validates_nothing_witness :
  "empty.obj" <> ""
  /\ List.last (str_split "." "empty.obj") "" = "obj"
  /\ disk start "empty.obj" = Some empty_obj
  /\ read_points empty_obj [] = inr []
  /\ exists bpa,
       __init__ 0%Q None (Some "empty.obj") None start = Return tt start bpa
       /\ radius bpa = 0%Q
       /\ point_cloud bpa = Array []
       /\ (([] : list Point.t) = [] ->
           run start bpa = Raise (IndexError "self.point_cloud[0]") (written start)).
Proof.
  split; [discriminate|]. split; [reflexivity|]. split; [reflexivity|].
  split; [reflexivity|].
  apply (constructor_validates_nothing (Sc := scalar) 0%Q "empty.obj" None start empty_obj []);
    [discriminate|reflexivity|reflexivity|reflexivity].
Defined.

Lemma direct_cloud_raises_witness :
  (Some square = Some square
   /\ 2 <= length square
   /\ __init__ 2%Q (Some square) None None start
      = Raise (ValueError "point_cloud or np.ndarray([])") (written start))
  /\ (__init__ 2%Q None (Some "square.obj") (Some 1%Z) start
      = Return tt start (square_engine 1)
      /\ point_cloud (square_engine 1) = Array square
      /\ 2 <= length square
      /\ exists f lines,
           Some "square.obj" = Some f /\ f <> ""
           /\ file_location (square_engine 1) = Some f
           /\ disk start f = Some lines /\ read_points lines [] = inr square).
Proof.
  assert (Hlen : 2 <= length square) by (cbn; lia).
  split.
  - split; [reflexivity|]. split; [exact Hlen|].
    apply (proj1 (direct_cloud_raises (Sc := scalar) 2%Q (Some square) None None start) square);
      [reflexivity|exact Hlen].
  - split; [reflexivity|]. split; [reflexivity|]. split; [exact Hlen|].
    apply (proj2 (direct_cloud_raises (Sc := scalar) 2%Q None (Some "square.obj") (Some 1%Z) start)
             start (square_engine 1) square);
      [reflexivity|reflexivity|exact Hlen].
Defined.

End samples.

(** * Text, files and the fall-back scan *)

Lemma append_cons a (s t : string) : String a s +:+ t = String a (s +:+ t).
Proof. reflexivity. Qed.

Lemma append_nil_l (s : string) : "" +:+ s = s.
Proof. reflexivity. Qed.

Lemma append_nil_r (s : string) : s +:+ "" = s.
Proof. induction s as [|a s IH]; [done|]. by rewrite append_cons, IH. Qed.

Lemma append_assoc (s t u : string) : (s +:+ t) +:+ u = s +:+ (t +:+ u).
Proof. induction s as [|a s IH]; [done|]. by rewrite !append_cons, IH. Qed.

Lemma length_append (s t : string) :
  String.length (s +:+ t) = String.length s + String.length t.
Proof. induction s as [|a s IH]; [done|]. rewrite append_cons. cbn. by rewrite IH. Qed.

Lemma str_split_nonempty c s : str_split c s <> [].
Proof. destruct s as [|a s]; cbn; [done|]. destruct (Ascii.eqb a c); [done|]. by destruct (str_split c s). Qed.

Lemma str_split_length c s : length (str_split c s) = Datatypes.S (occurrences c s).
Proof.
  induction s as [|a s IH]; cbn; [done|].
  destruct (Ascii.eqb a c); cbn; [by rewrite IH|].
  destruct (str_split c s); cbn in *; [done|]. done.
Qed.

Lemma str_split_plain c s : occurrences c s = 0 -> str_split c s = [s].
Proof.
  induction s as [|a s IH]; cbn; [done|].
  destruct (Ascii.eqb a c); cbn; [done|]. intros H. by rewrite IH.
Qed.

Lemma str_split_app c s t :
  str_split c (s +:+ String c t) = str_split c s ++ str_split c t.
Proof.
  induction s as [|a s IH]; [rewrite append_nil_l|rewrite append_cons]; cbn.
  - by rewrite Ascii.eqb_refl.
  - destruct (Ascii.eqb a c); cbn; [by rewrite IH|].
    rewrite IH. pose proof (str_split_nonempty c s).
    by destruct (str_split c s).
Qed.

Lemma str_join_split c s : str_join (String c "") (str_split c s) = s.
Proof.
  unfold str_join.
  induction s as [|a s IH]; cbn; [done|].
  destruct (Ascii.eqb_spec a c) as [->|Hne].
  - pose proof (str_split_nonempty c s).
    destruct (str_split c s) eqn:E; [done|]. cbn in *. by rewrite IH.
  - pose proof (str_split_nonempty c s).
    destruct (str_split c s) as [|h t] eqn:E; [done|].
    destruct t; cbn in *; by rewrite <- IH.
Qed.

Lemma concat_snoc sep (l : list string) x :
  l <> [] -> String.concat sep (l ++ [x]) = String.concat sep l +:+ sep +:+ x.
Proof.
  induction l as [|h t IH]; [done|]. intros _.
  destruct t as [|h' t']; [done|].
  change (String.concat sep ((h :: h' :: t') ++ [x]))
    with (h +:+ sep +:+ String.concat sep ((h' :: t') ++ [x])).
  rewrite IH by done.
  change (String.concat sep (h :: h' :: t')) with (h +:+ sep +:+ String.concat sep (h' :: t')).
  by rewrite !append_assoc.
Qed.

Lemma concat_alter_last sep (l : list string) suffix :
  l <> [] ->
  String.concat sep (alter (fun s => s +:+ suffix) (length l - 1) l)
  = String.concat sep l +:+ suffix.
Proof.
  destruct l as [|x init _] using rev_ind; [done|]. intros _.
  rewrite length_app. cbn [length].
  replace (length init + 1 - 1) with (length init + 0) by lia.
  rewrite alter_app_r. cbn [alter list_alter].
  destruct init as [|h t]; [done|].
  rewrite !concat_snoc by done.
  by rewrite !append_assoc.
Qed.

Lemma edited_name_stem stem ext suffix :
  occurrences "." ext = 0 ->
  edited_name (stem +:+ String "." ext) suffix
  = Some (stem +:+ suffix +:+ String "." ext).
Proof.
  intros Hext. unfold edited_name, str_join.
  rewrite str_split_app, (str_split_plain _ ext Hext).
  pose proof (str_split_nonempty "." stem) as Hne.
  rewrite length_app. cbn [length].
  assert (Hlen : 1 <= length (str_split "." stem))
    by (rewrite str_split_length; lia).
  rewrite (proj2 (Nat.ltb_ge _ _)) by lia.
  replace (length (str_split "." stem) + 1 - 2) with (length (str_split "." stem) - 1) by lia.
  rewrite alter_app_l by lia.
  rewrite concat_snoc.
  2:{ intros E. apply (f_equal length) in E. rewrite length_alter in E. cbn in E. lia. }
  rewrite concat_alter_last by done.
  fold (str_join "." (str_split "." stem)). rewrite (str_join_split "." stem).
  by rewrite !append_assoc.
Qed.

Lemma edited_name_None loc suffix :
  edited_name loc suffix = None <-> occurrences "." loc = 0.
Proof.
  unfold edited_name. rewrite str_split_length.
  destruct (Nat.ltb_spec (Datatypes.S (occurrences "." loc)) 2); split; try done; lia.
Qed.

Lemma last_dot c s :
  occurrences c s <> 0 ->
  exists stem ext, s = stem +:+ String c ext /\ occurrences c ext = 0.
Proof.
  induction s as [|a s IH]; [done|]. cbn. intros H.
  destruct (Nat.eq_dec (occurrences c s) 0) as [Hz|Hnz].
  - destruct (Ascii.eqb_spec a c) as [->|]; [|lia].
    by exists "", s.
  - destruct (IH Hnz) as (stem & ext & -> & Hext).
    by exists (String a stem), ext.
Qed.

Lemma words_token t : forall cur s,
  spaceless t = true -> words cur (t +:+ s) = words (cur +:+ t) s.
Proof.
  induction t as [|a t IH]; intros cur s H.
  - by rewrite append_nil_l, append_nil_r.
  - cbn in H. apply andb_true_iff in H as [Ha Ht].
    apply negb_true_iff in Ha.
    rewrite append_cons. cbn [words]. rewrite Ha, IH by done.
    by rewrite append_assoc.
Qed.

Lemma words_gap cur s :
  cur <> "" -> words cur (String " " s) = cur :: words "" s.
Proof.
  intros H. cbn [words].
  change (is_space " ") with true. cbv iota.
  by rewrite (proj2 (String.eqb_neq _ _) H).
Qed.


Lemma words_vertex_line (x y z : string) :
  x <> "" -> y <> "" -> z <> "" ->
  spaceless x = true -> spaceless y = true -> spaceless z = true ->
  words "" ("v " +:+ x +:+ " " +:+ y +:+ " " +:+ z +:+ String (ascii_of_nat 10) "")
  = ["v"; x; y; z].
Proof.
  intros Hx Hy Hz Sx Sy Sz.
  change ("v " +:+ x +:+ " " +:+ y +:+ " " +:+ z +:+ String (ascii_of_nat 10) "")
    with (String "v" (String " " (x +:+ String " " (y +:+ String " " (z +:+ String (ascii_of_nat 10) ""))))).
  change (words "" (String "v" (String " " ?s))) with ("v" :: words "" s).
  rewrite (words_token x), append_nil_l, words_gap by done.
  rewrite (words_token y), append_nil_l, words_gap by done.
  rewrite (words_token z), append_nil_l by done.
  cbn [words]. change (is_space (ascii_of_nat 10)) with true. cbv iota.
  by rewrite (proj2 (String.eqb_neq _ _) Hz).
Qed.


Lemma one_line_append s t : one_line (s +:+ t) = one_line s && one_line t.
Proof.
  induction s as [|a s IH]; [done|]. rewrite append_cons. cbn [one_line].
  by rewrite IH, andb_assoc.
Qed.

Lemma spaceless_one_line s : spaceless s = true -> one_line s = true.
Proof.
  induction s as [|a s IH]; [done|]. cbn [spaceless one_line].
  intros [Ha Hs]%andb_true_iff. rewrite (IH Hs), andb_true_r.
  destruct (Ascii.eqb_spec a line_feed) as [->|]; [done|].
  destruct (Ascii.eqb_spec a carriage_return) as [->|]; done.
Qed.

Lemma readlines_line s : forall t,
  one_line s = true ->
  readlines (s +:+ newline +:+ t) = (s +:+ newline) :: readlines t.
Proof.
  induction s as [|a s IH]; intros t H; [done|].
  cbn [one_line] in H. apply andb_true_iff in H as [Ha Hs].
  apply negb_true_iff, orb_false_iff in Ha as [Hlf Hcr].
  rewrite !append_cons. cbn [readlines]. rewrite Hlf, Hcr.
  by rewrite (IH t Hs).
Qed.

Lemma one_line_uint d : one_line (NilZero.string_of_uint d) = true.
Proof.
  assert (H : forall d, one_line (NilEmpty.string_of_uint d) = true)
    by (intros u; induction u; cbn; done).
  destruct d; cbn; try done; apply H.
Qed.

Section reading.
Context `{G : Geometry}.
Variable show : real -> string.


Lemma read_points_skip l rest acc :
  is_vertex_line l = false -> words "" l <> [] \/ String.length l <= 3 ->
  read_points (l :: rest) acc = read_points rest acc.
Proof.
  unfold is_vertex_line. intros Hv Hw. cbn [read_points].
  destruct (Nat.ltb_spec 3 (String.length l)) as [Hlen|Hlen]; [|done].
  cbn in *. destruct Hw as [Hw|]; [|lia].
  unfold segment. destruct (words "" l) as [|s0 ws]; [done|]. cbn.
  by rewrite Hv.
Qed.

Lemma read_points_vertex_line p rest acc :
  shown_point show p ->
  read_points (render show (vertex_line p) :: rest) acc = read_points rest (acc ++ [p]).
Proof.
  intros ((Fx & Nx & Sx) & (Fy & Ny & Sy) & (Fz & Nz & Sz)).
  cbn [read_points render vertex_line].
  unfold newline.
  assert (Hlen : 3 < String.length
            ("v " +:+ show (Point.x p) +:+ " " +:+ show (Point.y p) +:+ " "
               +:+ show (Point.z p) +:+ String (ascii_of_nat 10) "")).
  { rewrite !length_append. cbn.
    destruct (show (Point.x p)); [done|]. cbn. lia. }
  rewrite (proj2 (Nat.ltb_lt _ _) Hlen). cbn [negb].
  rewrite words_vertex_line by done.
  unfold vertex_of, coordinate, segment. cbn.
  rewrite Fx, Fy, Fz. by destruct p.
Qed.

Lemma read_points_vertices cloud : forall rest acc,
  Forall (shown_point show) cloud ->
  read_points (List.map (render show) (List.map vertex_line cloud) ++ rest) acc
  = read_points rest (acc ++ cloud).
Proof.
  induction cloud as [|p cloud IH]; intros rest acc H.
  - by rewrite app_nil_r.
  - inversion H; subst. cbn [List.map app].
    rewrite read_points_vertex_line by done.
    rewrite IH by done. by rewrite <- app_assoc.
Qed.

Lemma read_points_comment loc rest acc :
  read_points (render show (Comment loc) :: rest) acc = read_points rest acc.
Proof.
  cbn [read_points render].
  destruct (negb _); [done|].
  change ("# " +:+ loc +:+ newline) with (String "#" (String " " (loc +:+ newline))).
  change (words "" (String "#" (String " " ?s))) with ("#" :: words "" s).
  done.
Qed.

Lemma read_points_triangles fs : forall acc,
  read_points (List.map (render show) (List.map face_line fs)) acc = inr acc.
Proof.
  induction fs as [|f fs IH]; intros acc; [done|].
  cbn [List.map read_points render face_line].
  destruct (negb _); [apply IH|].
  change ("f " +:+ ?s) with (String "f" (String " " s)).
  change (words "" (String "f" (String " " ?s))) with ("f" :: words "" s).
  apply IH.
Qed.

Lemma read_mesh loc cloud fs acc :
  Forall (shown_point show) cloud ->
  read_points (List.map (render show) (mesh_lines loc cloud fs)) acc = inr (acc ++ cloud).
Proof.
  intros H. unfold mesh_lines. cbn [List.map].
  rewrite read_points_comment, List.map_app, read_points_vertices by done.
  cbn [List.map read_points render]. cbn. apply read_points_triangles.
Qed.

Lemma read_cloud_file loc cloud acc :
  Forall (shown_point show) cloud ->
  read_points (List.map (render show) (Comment loc :: List.map vertex_line cloud)) acc
  = inr (acc ++ cloud).
Proof.
  intros H. cbn [List.map].
  rewrite read_points_comment.
  rewrite <- (app_nil_r (List.map (render show) _)), read_points_vertices by done.
  done.
Qed.

Lemma concat_cons (x : string) l : String.concat "" (x :: l) = x +:+ String.concat "" l.
Proof. destruct l; cbn [String.concat]; [by rewrite append_nil_r|done]. Qed.

Lemma render_line l :
  printable show l -> exists body, render show l = body +:+ newline /\ one_line body = true.
Proof.
  destruct l as [t|x y z| |i j k]; cbn [printable render].
  - intros H. exists ("# " +:+ t). split; [by rewrite !append_assoc|].
    rewrite one_line_append, H. reflexivity.
  - intros (Hx & Hy & Hz).
    exists ("v " +:+ show x +:+ " " +:+ show y +:+ " " +:+ show z).
    rewrite !append_assoc. split; [done|].
    rewrite !one_line_append.
    rewrite (spaceless_one_line _ Hx), (spaceless_one_line _ Hy), (spaceless_one_line _ Hz).
    reflexivity.
  - intros _. by exists "".
  - intros _. exists ("f " +:+ show_nat i +:+ " " +:+ show_nat j +:+ " " +:+ show_nat k).
    rewrite !append_assoc. split; [done|].
    unfold show_nat. rewrite !one_line_append, !one_line_uint. reflexivity.
Qed.

Lemma readlines_text content :
  Forall (printable show) content -> readlines (text show content) = List.map (render show) content.
Proof.
  unfold text. induction 1 as [|l content Hl _ IH]; [done|].
  cbn [List.map]. rewrite concat_cons.
  destruct (render_line l Hl) as (body & -> & Hbody).
  by rewrite append_assoc, readlines_line, IH.
Qed.

Lemma printable_vertices cloud :
  Forall (shown_point show) cloud -> Forall (printable show) (List.map vertex_line cloud).
Proof.
  induction 1 as [|p cloud ((_ & _ & Hx) & (_ & _ & Hy) & (_ & _ & Hz)) _ IH];
    constructor; done.
Qed.

Lemma printable_faces fs : Forall (printable show) (List.map face_line fs).
Proof. induction fs; constructor; done. Qed.

Lemma read_back_mesh loc cloud fs :
  one_line loc = true -> Forall (shown_point show) cloud ->
  read_points (readlines (text show (mesh_lines loc cloud fs))) [] = inr cloud.
Proof.
  intros Hloc Hcloud. rewrite readlines_text.
  - by rewrite read_mesh.
  - unfold mesh_lines. constructor; [done|].
    apply Forall_app. split; [by apply printable_vertices|].
    constructor; [done|apply printable_faces].
Qed.

Lemma read_back_cloud loc cloud :
  one_line loc = true -> Forall (shown_point show) cloud ->
  read_points (readlines (text show (Comment loc :: List.map vertex_line cloud))) [] = inr cloud.
Proof.
  intros Hloc Hcloud. rewrite readlines_text.
  - by rewrite read_cloud_file.
  - constructor; [done|by apply printable_vertices].
Qed.

End reading.

Section engine_more.
Context `{G : Geometry}.

Ltac unfold_py :=
  unfold deref, index_of in *;
  unfold bind, expect in *;
  unfold ret, raise, quit, get_world, get_self, put_self,
    append_edge, append_face, new_edge, new_face, rebind_edges, write in *.



Lemma next_front_at w self : forall rest k i f r,
  length rest + k = length (self_faces w self) ->
  rest !! i = Some f ->
  Face.get_new_edge (heap w) f = Some r ->
  (forall j g, j < i -> rest !! j = Some g -> Face.get_new_edge (heap w) g = None) ->
  next_front rest k None w self = Return (Some r) w self.
Proof.
  induction rest as [|g rest IH]; intros k i f r Hlen Hi Hf Hbefore; [done|].
  rewrite next_front_None.
  rewrite (proj2 (Nat.ltb_ge _ _)) by (cbn in Hlen; lia).
  destruct i as [|i].
  - injection Hi as ->. rewrite Hf. apply next_front_found.
  - rewrite (Hbefore 0 g) by (done || lia).
    apply (IH (Datatypes.S k) i f r); [cbn in Hlen; lia|done|done|].
    intros j g' Hj Hg'. apply (Hbefore (Datatypes.S j) g'); [lia|done].
Qed.

Lemma np_where_first (p : Point.t) rest : head (np_where (p :: rest) p) = Some 0.
Proof.
  unfold np_where. cbn. unfold Point.eqb at 1.
  by rewrite bool_decide_eq_true_2.
Qed.

Lemma seed_first_point w self f w' self' :
  find_seed_triangle w self = Return f w' self' ->
  exists cloud,
    point_cloud self = Array cloud
    /\ head cloud = Some (Face.p1 f)
    /\ Face.p1_index f = 0.
Proof.
  intros H.
  apply find_seed_triangle_Return in H
    as (cloud & a & b & c & i1 & i2 & i3 & Hpc & Hhead & _ & _ & H1 & _ & _ & -> & _).
  exists cloud. split; [done|]. split; [done|]. cbn.
  destruct cloud as [|p rest]; [done|]. injection Hhead as ->.
  rewrite np_where_first in H1. by injection H1.
Qed.

Lemma seed_points_left w self f w' self' :
  find_seed_triangle w self = Return f w' self' ->
  points_left w' self' = Return true w' self'.
Proof.
  intros H.
  apply find_seed_triangle_Return in H
    as (cloud & a & b & c & i1 & i2 & i3 & _ & _ & _ & _ & _ & _ & _ & _ & -> & ->).
  unfold points_left. unfold_py. f_equal.
  apply existsb_exists. exists (length (heap w)).
  split.
  - unfold self_edges, seed_self, seed_world.
    destruct self as [pc r it fl [own|]]; cbn; apply in_or_app; right; by left.
  - unfold Face.is_front, seed_world. cbn.
    rewrite lookup_app_r by lia. by rewrite Nat.sub_diag.
Qed.

Lemma init_no_file r cloud file iters w w' bpa :
  file = None \/ file = Some "" ->
  __init__ r cloud file iters w = Return tt w' bpa ->
  w' = w /\ file_location bpa = None /\ radius bpa = r
  /\ (point_cloud bpa = Unsized \/ exists p, point_cloud bpa = Array [p]).
Proof.
  unfold __init__, init_body, cloud_or_default, cloud_len.
  intros Hfile H. unfold_py.
  destruct Hfile as [-> | ->].
  all: destruct cloud as [[|p [|q rest]]|]; cbn in H; try done.
  all: destruct iters as [n|]; [destruct (n =? 0)%Z|]; cbn in H; simplify_eq.
  all: cbn; eauto 10.
Qed.

Lemma run_one_point w self p :
  point_cloud self = Array [p] ->
  run w self
  = Raise (LookupError "first_point.get_closest_point(neighbours, distances)") (written w).
Proof.
  intros H. apply run_seed_Raise. apply (seed_no_neighbour w self [p] p); [done|done|].
  cbn. unfold Point.eqb. by rewrite bool_decide_eq_true_2.
Qed.

Lemma run_unsized w self :
  point_cloud self = Unsized ->
  run w self = Raise (IndexError "self.point_cloud[0]") (written w).
Proof.
  intros H. apply run_seed_Raise.
  unfold find_seed_triangle. unfold_py. by rewrite H.
Qed.

Lemma engine_without_file r cloud file iters w w' bpa :
  file = None \/ file = Some "" ->
  __init__ r cloud file iters w = Return tt w' bpa ->
  forall w2,
    (exists e, run w2 bpa = Raise e (written w2))
    /\ write_to_file None w2 bpa
       = Raise (AttributeError "self.file_location") (written w2).
Proof.
  intros Hfile H w2.
  apply init_no_file in H as (_ & Hloc & _ & Hpc); [|done].
  split.
  - destruct Hpc as [Hpc|[p Hpc]]; eexists.
    + by apply run_unsized.
    + by eapply run_one_point.
  - unfold write_to_file. unfold_py. by rewrite Hloc.
Qed.

Lemma init_file_inv r file iters w w' bpa :
  file <> "" ->
  __init__ r None (Some file) iters w = Return tt w' bpa ->
  exists lines points,
    List.last (str_split "." file) "" = "obj"
    /\ disk w file = Some lines
    /\ read_points lines [] = inr points
    /\ w' = w
    /\ bpa = mkEngine (Array points) r (stored_iterations iters points) (Some file) None.
Proof.
  unfold __init__, init_body, cloud_or_default, open_point_cloud, cloud_len,
    stored_iterations.
  intros Hne H. unfold_py.
  cbn -[String.eqb str_split read_points] in H.
  rewrite (proj2 (String.eqb_neq _ _) Hne) in H.
  cbn -[String.eqb str_split read_points] in H.
  destruct (String.eqb_spec (List.last (str_split "." file) "") "obj") as [Hext|];
    cbn -[String.eqb str_split read_points] in H; [|done].
  destruct (disk w file) as [lines|] eqn:Hdisk;
    cbn -[String.eqb str_split read_points] in H; [|done].
  destruct (read_points lines []) as [e|points] eqn:Hread;
    cbn -[String.eqb str_split read_points] in H; [done|].
  exists lines, points.
  destruct iters as [n|]; [destruct (n =? 0)%Z|]; cbn in H; simplify_eq; done.
Qed.



Lemma init_other_extension r file iters w :
  file <> "" ->
  List.last (str_split "." file) "" <> "obj" ->
  __init__ r None (Some file) iters w
  = Raise (ValueError "Only able to read object data of types ['obj']") (written w).
Proof.
  intros Hne Hext.
  unfold __init__, init_body, cloud_or_default, open_point_cloud, cloud_len.
  unfold_py. cbn -[String.eqb str_split read_points].
  rewrite (proj2 (String.eqb_neq _ _) Hne), (proj2 (String.eqb_neq _ _) Hext).
  done.
Qed.

Lemma main_Return r file iters w w' bpa' :
  main r file iters w = Return tt w' bpa' ->
  exists lines cloud,
    file <> ""
    /\ List.last (str_split "." file) "" = "obj"
    /\ disk w file = Some lines
    /\ read_points lines [] = inr cloud
    /\ run w (mkEngine (Array cloud) r (stored_iterations (Some iters) cloud) (Some file) None)
       = Return tt w' bpa'.
Proof.
  unfold main. intros H.
  destruct (__init__ r None (Some file) (Some iters) w) as [[] w1 bpa| |] eqn:Hinit;
    [|done|done].
  destruct (String.eqb_spec file "") as [->|Hne].
  - apply engine_without_file with (w2 := w1) in Hinit as [[e He] _]; [|by right].
    congruence.
  - apply init_file_inv in Hinit as (lines & cloud & Hext & Hdisk & Hread & -> & ->);
      [|done].
    by exists lines, cloud.
Qed.

Lemma write_to_file_stem arg w self stem ext cloud :
  match arg with Some l => Some l | None => file_location self end
  = Some (stem +:+ String "." ext) ->
  occurrences "." ext = 0 ->
  point_cloud self = Array cloud ->
  write_to_file arg w self
  = Return tt
      (set_written w
         (written w
            ++ [(stem +:+ "_edited" +:+ String "." ext,
                 mesh_lines (stem +:+ String "." ext) cloud (faces w));
                (stem +:+ "_point_cloud" +:+ String "." ext,
                 Comment (stem +:+ String "." ext) :: List.map vertex_line cloud)]))
      self.
Proof.
  intros Harg Hext Hpc. unfold write_to_file. unfold_py.
  rewrite Harg, !edited_name_stem, Hpc by done. cbn.
  unfold mesh_lines, self_faces. by rewrite <- app_assoc.
Qed.

Lemma write_to_file_dotless arg w self loc :
  match arg with Some l => Some l | None => file_location self end = Some loc ->
  occurrences "." loc = 0 ->
  write_to_file arg w self = Raise (IndexError "edited_file_location[-2]") (written w).
Proof.
  intros Harg Hloc. unfold write_to_file. unfold_py.
  by rewrite Harg, (proj2 (edited_name_None loc "_edited") Hloc).
Qed.

Lemma run_dotless w self loc :
  file_location self = Some loc -> occurrences "." loc = 0 ->
  exists e, run w self = Raise e (written w).
Proof.
  intros Hloc Hdot.
  destruct (run w self) as [[] w' self'|w'|e fs] eqn:Hrun.
  - apply run_faces in Hrun
      as (seed & new & loc' & mesh & cf & cloud & _ & Hloc' & Hmesh & _).
    rewrite Hloc in Hloc'. injection Hloc' as <-.
    apply (proj2 (edited_name_None loc "_edited")) in Hdot. congruence.
  - by apply run_no_Exit in Hrun.
  - exists e. by rewrite (run_Raise_writes_nothing _ _ _ _ Hrun).
Qed.

Lemma last_split_ext c stem ext :
  occurrences c ext = 0 ->
  List.last (str_split c (stem +:+ String c ext)) "" = ext.
Proof.
  intros H. rewrite str_split_app, (str_split_plain _ _ H). apply last_last.
Qed.

Lemma append_longer (s t u : string) : t <> "" -> s +:+ t +:+ u <> s +:+ u.
Proof.
  intros Ht E. apply (f_equal String.length) in E.
  rewrite !length_append in E. destruct t; [done|]. cbn in E. lia.
Qed.

Lemma write_to_file_names arg w self w' self' :
  write_to_file arg w self = Return tt w' self' ->
  exists stem ext cloud,
    match arg with Some l => Some l | None => file_location self end
    = Some (stem +:+ String "." ext)
    /\ occurrences "." ext = 0
    /\ point_cloud self = Array cloud
    /\ w' = set_written w
              (written w
                 ++ [(stem +:+ "_edited" +:+ String "." ext,
                      mesh_lines (stem +:+ String "." ext) cloud (faces w));
                     (stem +:+ "_point_cloud" +:+ String "." ext,
                      Comment (stem +:+ String "." ext) :: List.map vertex_line cloud)]).
Proof.
  intros H.
  pose proof H as H'.
  apply write_to_file_Return in H'
    as (loc & mesh & cf & cloud & Hloc & Hmesh & _ & Hpc & _ & _).
  destruct (last_dot "." loc) as (stem & ext & -> & Hext).
  { intros Hz. apply (proj2 (edited_name_None _ "_edited")) in Hz. congruence. }
  exists stem, ext, cloud.
  rewrite (write_to_file_stem _ _ _ _ _ _ Hloc Hext Hpc) in H.
  injection H as <- _. done.
Qed.

End engine_more.

(** * Further properties of the code *)

Section extras.
Context `{G : Geometry}.

#[local] Ltac unfold_py :=
  unfold deref, index_of in *;
  unfold bind, expect in *;
  unfold ret, raise, quit, get_world, get_self, put_self,
    append_edge, append_face, new_edge, new_face, rebind_edges, write in *.



(** X3.  What [write_to_file] writes can be read back.  Let the location
    end in [.obj] and hold no line break, and let the numbers be printed so
    that [float] reads each one back.  Then an engine constructed from
    either of the two files written has the cloud of the engine that wrote
    them, point for point and in the same order. *)
Theorem written_files_read_back (show : real -> string) arg w self w' self' loc cloud :
  write_to_file arg w self = Return tt w' self' ->
  match arg with Some l => Some l | None => file_location self end = Some loc ->
  point_cloud self = Array cloud ->
  List.last (str_split "." loc) "" = "obj" ->
  one_line loc = true ->
  Forall (shown_point show) cloud ->
  exists new,
    written w' = written w ++ new
    /\ length new = 2
    /\ forall name content r iters w2,
         (name, content) ∈ new ->
         disk w2 name = Some (readlines (text show content)) ->
         __init__ r None (Some name) iters w2
         = Return tt w2
             (mkEngine (Array cloud) r (stored_iterations iters cloud) (Some name) None).
Proof.
  intros H Hloc Hpc Hobj Hline Hshown.
  apply write_to_file_names in H as (stem & ext & cloud' & Hloc' & Hext & Hpc' & ->).
  rewrite Hloc in Hloc'. injection Hloc' as ->.
  rewrite Hpc in Hpc'. injection Hpc' as <-.
  rewrite last_split_ext in Hobj by done. subst ext.
  eexists. split; [reflexivity|]. split; [done|].
  intros name content r iters w2 Hin Hdisk.
  apply elem_of_cons in Hin as [Hin|Hin]; [|apply list_elem_of_singleton in Hin].
  all: injection Hin as -> ->.
  all: eapply init_from_file; [| |exact Hdisk|].
  - intros E. apply (f_equal String.length) in E. rewrite !length_append in E.
    cbn in E. lia.
  - rewrite <- (append_assoc stem "_edited" (String "." "obj")).
    by apply last_split_ext.
  - by apply read_back_mesh.
  - intros E. apply (f_equal String.length) in E. rewrite !length_append in E.
    cbn in E. lia.
  - rewrite <- (append_assoc stem "_point_cloud" (String "." "obj")).
    by apply last_split_ext.
  - by apply read_back_cloud.
Qed.


(** X5.  A location without a dot, which the extension check of line 48
    lets through when it is the word [obj] itself, can be read but never
    written: [write_to_file] fails on [edited_file_location[-2]], and every
    [run] of such an engine ends in an exception with no file written. *)
Theorem dotless_location_never_written w self loc :
  file_location self = Some loc ->
  occurrences "." loc = 0 ->
  (exists e, run w self = Raise e (written w))
  /\ write_to_file None w self
     = Raise (IndexError "edited_file_location[-2]") (written w).
Proof.
  intros Hloc Hdot. split.
  - by eapply run_dotless.
  - by eapply write_to_file_dotless.
Qed.

(** X6.  [write_to_file] never writes over the file it names: when it
    returns, the two files it wrote have names different from the location
    and from each other, and both keep the extension of the location. *)
Theorem outputs_beside_input arg w self w' self' :
  write_to_file arg w self = Return tt w' self' ->
  exists loc mesh m cloud_file c,
    match arg with Some l => Some l | None => file_location self end = Some loc
    /\ written w' = written w ++ [(mesh, m); (cloud_file, c)]
    /\ mesh <> loc /\ cloud_file <> loc /\ mesh <> cloud_file
    /\ List.last (str_split "." mesh) "" = List.last (str_split "." loc) ""
    /\ List.last (str_split "." cloud_file) "" = List.last (str_split "." loc) "".
Proof.
  intros H.
  apply write_to_file_names in H as (stem & ext & cloud & Hloc & Hext & _ & ->).
  do 5 eexists. split; [exact Hloc|]. split; [reflexivity|].
  split; [by apply append_longer|]. split; [by apply append_longer|].
  split.
  { intros E. apply (f_equal String.length) in E. rewrite !length_append in E.
    cbn in E. lia. }
  rewrite <- (append_assoc stem "_edited" (String "." ext)).
  rewrite <- (append_assoc stem "_point_cloud" (String "." ext)).
  by rewrite !last_split_ext.
Qed.

(** X7.  An engine constructed without a file name, or with the empty
    name, is of no use: whatever it was given as cloud, in every store its
    [run] raises without writing, and [write_to_file()] raises the
    [AttributeError] of the [file_location] that was never set. *)
Theorem engine_without_file_unusable r cloud file iters w w' bpa :
  file = None \/ file = Some "" ->
  __init__ r cloud file iters w = Return tt w' bpa ->
  forall w2,
    (exists e, run w2 bpa = Raise e (written w2))
    /\ write_to_file None w2 bpa
       = Raise (AttributeError "self.file_location") (written w2).
Proof. apply engine_without_file. Qed.


(** X9.  The number of faces of a run of [main].  When [main] returns, the
    file was read, and the shared face list has grown by the seed face and
    one face per pivot: [iterations] pivots when it is positive, none when
    it is negative, and as many as the file has points when it is 0, which
    the constructor takes for "not given". *)
Theorem main_face_count r file iters w w' bpa :
  main r file iters w = Return tt w' bpa ->
  exists lines cloud,
    disk w file = Some lines
    /\ read_points lines [] = inr cloud
    /\ length (faces w')
       = length (faces w) + 1
         + Z.to_nat (if (iters =? 0)%Z then Z.of_nat (length cloud) else iters).
Proof.
  intros H.
  apply main_Return in H as (lines & cloud & _ & _ & Hdisk & Hread & Hrun).
  exists lines, cloud. split; [done|]. split; [done|].
  apply run_faces in Hrun
    as (seed & new & _ & _ & _ & _ & _ & _ & _ & _ & Hlen & _ & Hf & _).
  rewrite Hf, length_app. cbn in *. lia.
Qed.

(** X10.  A name that is not empty and whose part after the last dot is not
    [obj] is refused before any file is opened: the constructor, and [main]
    with it, raises the [ValueError] of line 49 whatever the store holds,
    and nothing is written. *)
Theorem other_extension_rejected r file iters n w :
  file <> "" ->
  List.last (str_split "." file) "" <> "obj" ->
  __init__ r None (Some file) iters w
  = Raise (ValueError "Only able to read object data of types ['obj']") (written w)
  /\ main r file n w
     = Raise (ValueError "Only able to read object data of types ['obj']") (written w).
Proof.
  intros Hne Hext. split; [by apply init_other_extension|].
  unfold main. by rewrite init_other_extension.
Qed.

(** X11.  [main] with the empty name always raises.  The constructor skips
    the loader and keeps the array of shape [()]: with [iterations = 0] it
    fails on [len(self.point_cloud)], otherwise it returns and [run] fails
    on [self.point_cloud[0]]. *)
Theorem main_without_name_raises r iters w :
  main r "" iters w
  = Raise (if (iters =? 0)%Z then TypeError "len(self.point_cloud)"
           else IndexError "self.point_cloud[0]") (written w).
Proof.
  unfold main, __init__, init_body, cloud_or_default, cloud_len. unfold_py.
  cbn. destruct (iters =? 0)%Z; cbn; done.
Qed.

(** X12.  The fall-back scan of lines 190 to 196 takes the first face, in
    the order of the shared face list, that offers an edge: it returns that
    edge and leaves the store and the engine as they were. *)
Theorem scan_takes_first_front w self i f r :
  self_faces w self !! i = Some f ->
  Face.get_new_edge (heap w) f = Some r ->
  (forall j g, j < i -> self_faces w self !! j = Some g ->
     Face.get_new_edge (heap w) g = None) ->
  next_front (self_faces w self) 0 None w self = Return (Some r) w self.
Proof. intros Hi Hf Hbefore. eapply next_front_at; [lia|done|done|done]. Qed.

(** X13.  The guard of line 193 never holds: from every state and with
    every starting edge the scan ends without [write_to_file(); quit()]. *)
Theorem scan_never_quits w self edge w' :
  next_front (self_faces w self) 0 edge w self <> Exit w'.
Proof. apply next_front_no_Exit. lia. Qed.

(** X14.  The seed triangle sits on the first point of the cloud: the first
    vertex of the face that [find_seed_triangle] returns is
    [self.point_cloud[0]], and its recorded position is 0. *)
Theorem seed_on_first_point w self f w' self' :
  find_seed_triangle w self = Return f w' self' ->
  exists cloud,
    point_cloud self = Array cloud
    /\ head cloud = Some (Face.p1 f)
    /\ Face.p1_index f = 0.
Proof. apply seed_first_point. Qed.

(** X15.  After a seed triangle has been found, [points_left()] answers
    [True], and asking changes nothing. *)
Theorem points_left_after_seed w self f w' self' :
  find_seed_triangle w self = Return f w' self' ->
  points_left w' self' = Return true w' self'.
Proof. apply seed_points_left. Qed.

(** X16.  The mesh file of a run lists the faces of earlier runs too: every
    face that was in the shared face list when [run] was called has its
    [f] line in the first file the run writes. *)
Theorem mesh_lists_earlier_faces w self w' self' f :
  run w self = Return tt w' self' ->
  f ∈ faces w ->
  exists mesh content,
    written w' !! length (written w) = Some (mesh, content)
    /\ face_line f ∈ content.
Proof.
  intros H Hf.
  apply run_faces in H
    as (seed & new & loc & mesh & cf & cloud & _ & _ & _ & _ & _ & _ & Hfs & Hw & _).
  exists mesh, (mesh_lines loc cloud (faces w')).
  split.
  - rewrite Hw, lookup_app_r by lia. by rewrite Nat.sub_diag.
  - unfold mesh_lines. apply elem_of_cons. right.
    apply elem_of_app. right. apply elem_of_cons. right.
    apply list_elem_of_In, in_map, list_elem_of_In.
    rewrite Hfs. apply elem_of_app. by left.
Qed.

End extras.

(** ** Instances of the further properties *)

Section more_samples.
Import Exact Sample Printed.



Lemma square_shown : Forall (shown_point repr) square.
Proof.
  unfold square.
  repeat (apply List.Forall_cons; [|]); [..|apply List.Forall_nil].
  all: repeat split; discriminate.
Qed.

Lemma written_files_read_back_witness :
  write_to_file None (pivoted 1) (engine2 1) = Return tt finished_1 (engine2 1)
  /\ file_location (engine2 1) = Some "square.obj"
  /\ point_cloud (engine2 1) = Array square
  /\ List.last (str_split "." "square.obj") "" = "obj"
  /\ one_line "square.obj" = true
  /\ Forall (shown_point repr) square
  /\ exists new,
       written finished_1 = written (pivoted 1) ++ new
       /\ length new = 2
       /\ forall name content r iters w2,
            (name, content) ∈ new ->
            disk w2 name = Some (readlines (text repr content)) ->
            __init__ r None (Some name) iters w2
            = Return tt w2
                (mkEngine (Array square) r (stored_iterations iters square)
                   (Some name) None).
Proof.
  split; [reflexivity|]. split; [reflexivity|]. split; [reflexivity|].
  split; [reflexivity|]. split; [reflexivity|]. split; [exact square_shown|].
  apply (written_files_read_back repr None (pivoted 1) (engine2 1) finished_1
           (engine2 1) "square.obj" square);
    [reflexivity|reflexivity|reflexivity|reflexivity|reflexivity|exact square_shown].
Defined.


Lemma dotless_location_never_written_witness :
  __init__ 2%Q None (Some "obj") (Some 1%Z) stocked = Return tt stocked obj_engine
  /\ file_location obj_engine = Some "obj"
  /\ occurrences "." "obj" = 0
  /\ (exists e, run stocked obj_engine = Raise e (written stocked))
  /\ write_to_file None stocked obj_engine
     = Raise (IndexError "edited_file_location[-2]") (written stocked).
Proof.
  split; [reflexivity|]. split; [reflexivity|]. split; [reflexivity|].
  apply (dotless_location_never_written stocked obj_engine "obj"); reflexivity.
Defined.

Lemma outputs_beside_input_witness :
  write_to_file None (pivoted 1) (engine2 1) = Return tt finished_1 (engine2 1)
  /\ exists loc mesh m cloud_file c,
       file_location (engine2 1) = Some loc
       /\ written finished_1 = written (pivoted 1) ++ [(mesh, m); (cloud_file, c)]
       /\ mesh <> loc /\ cloud_file <> loc /\ mesh <> cloud_file
       /\ List.last (str_split "." mesh) "" = List.last (str_split "." loc) ""
       /\ List.last (str_split "." cloud_file) "" = List.last (str_split "." loc) "".
Proof.
  split; [reflexivity|].
  apply (outputs_beside_input None (pivoted 1) (engine2 1) finished_1 (engine2 1)).
  reflexivity.
Defined.

Lemma engine_without_file_unusable_witness :
  ((None : option string) = None \/ (None : option string) = Some "")
  /\ __init__ 2%Q None None (Some 5%Z) start
     = Return tt start bare_engine
  /\ forall w2,
       (exists e, run w2 bare_engine = Raise e (written w2))
       /\ write_to_file None w2 bare_engine
          = Raise (AttributeError "self.file_location") (written w2).
Proof.
  split; [by left|]. split; [reflexivity|].
  apply (engine_without_file_unusable (Sc := scalar) 2%Q None None (Some 5%Z) start start
           bare_engine);
    [by left|reflexivity].
Defined.

Lemma main_face_count_witness :
  main 2%Q "square.obj" 1%Z start = Return tt finished_1 (engine2 1)
  /\ exists lines cloud,
       disk start "square.obj" = Some lines
       /\ read_points lines [] = inr cloud
       /\ length (faces finished_1)
          = length (faces start) + 1
            + Z.to_nat (if (1 =? 0)%Z then Z.of_nat (length cloud) else 1%Z).
Proof.
  split; [reflexivity|].
  apply (main_face_count (Sc := scalar) 2%Q "square.obj" 1%Z start finished_1 (engine2 1)).
  reflexivity.
Defined.

Lemma other_extension_rejected_witness :
  "bunny.ply" <> ""
  /\ List.last (str_split "." "bunny.ply") "" <> "obj"
  /\ __init__ 2%Q None (Some "bunny.ply") None start
     = Raise (ValueError "Only able to read object data of types ['obj']") (written start)
  /\ main 2%Q "bunny.ply" 50%Z start
     = Raise (ValueError "Only able to read object data of types ['obj']") (written start).
Proof.
  split; [discriminate|]. split; [discriminate|].
  apply (other_extension_rejected (Sc := scalar) 2%Q "bunny.ply" None 50%Z start);
    discriminate.
Defined.

Lemma scan_takes_first_front_witness :
  self_faces half_open (square_engine 1) !! 1 = Some (Face.mk C A D 2 3 4 2 0 3)
  /\ Face.get_new_edge (heap half_open) (Face.mk C A D 2 3 4 2 0 3) = Some 3
  /\ (forall j g, j < 1 -> self_faces half_open (square_engine 1) !! j = Some g ->
        Face.get_new_edge (heap half_open) g = None)
  /\ next_front (self_faces half_open (square_engine 1)) 0 None half_open (square_engine 1)
     = Return (Some 3) half_open (square_engine 1).
Proof.
  assert (H : forall j g, j < 1 ->
            self_faces half_open (square_engine 1) !! j = Some g ->
            Face.get_new_edge (heap half_open) g = None).
  { intros [|j] g Hj; [|lia]. intros [= <-]. reflexivity. }
  split; [reflexivity|]. split; [reflexivity|]. split; [exact H|].
  apply (scan_takes_first_front half_open (square_engine 1) 1
           (Face.mk C A D 2 3 4 2 0 3) 3);
    [reflexivity|reflexivity|exact H].
Defined.

Lemma seed_on_first_point_witness :
  find_seed_triangle start (square_engine 1)
  = Return seed_face (seed_world start (square_engine 1) A B C) (square_engine 1)
  /\ exists cloud,
       point_cloud (square_engine 1) = Array cloud
       /\ head cloud = Some (Face.p1 seed_face)
       /\ Face.p1_index seed_face = 0.
Proof.
  split; [reflexivity|].
  apply (seed_on_first_point start (square_engine 1) seed_face
           (seed_world start (square_engine 1) A B C) (square_engine 1)).
  reflexivity.
Defined.

Lemma points_left_after_seed_witness :
  find_seed_triangle start (square_engine 1)
  = Return seed_face (seed_world start (square_engine 1) A B C) (square_engine 1)
  /\ points_left (seed_world start (square_engine 1) A B C) (square_engine 1)
     = Return true (seed_world start (square_engine 1) A B C) (square_engine 1).
Proof.
  split; [reflexivity|].
  apply (points_left_after_seed start (square_engine 1) seed_face
           (seed_world start (square_engine 1) A B C) (square_engine 1)).
  reflexivity.
Defined.

Lemma mesh_lists_earlier_faces_witness :
  run finished_1 (square_engine (-1)) = Return tt rerun (square_engine (-1))
  /\ seed_face ∈ faces finished_1
  /\ exists mesh content,
       written rerun !! length (written finished_1) = Some (mesh, content)
       /\ face_line seed_face ∈ content.
Proof.
  assert (H : seed_face ∈ faces finished_1) by (by left).
  split; [reflexivity|]. split; [exact H|].
  apply (mesh_lists_earlier_faces finished_1 (square_engine (-1)) rerun
           (square_engine (-1)) seed_face);
    [reflexivity|exact H].
Defined.

End more_samples.
